(** * A shallow embedding of the chess back end

    The development follows the repository's layout:
    - [Moves]   embeds [game/moves.py], the rules engine: the geometry
      helpers, the decorators ([_clean_moves], [_filter_line],
      [_check_blocks], [_check_move_found]) as higher-order functions, the
      piece classes with [find], [check_move] and [move];
    - [Sockets] embeds [app/sockets.py], the socket gateway: the
      handlers of [type_funcs], [_parse_input], [_process_message] and
      [received_message].

    Python integers are [Z]; the true division [/] and [math.fabs] produce
    IEEE doubles, modelled by Rocq's primitive floats; Python sets of
    squares are [gset (Z * Z)]; the board, an [OrderedDict] keyed by
    squares, is a [gmap]; piece objects live in a store indexed by
    references, so that the board and the caller share one piece; a
    color is a [str] object, which [==] and [is] compare differently. *)

From Stdlib Require Import ZArith Floats.
From stdpp Require Import gmap strings list functions.

Open Scope Z_scope.

Module Moves.

(** ** Python values used by the geometry helpers *)

(** A square [(x, y)]. *)
Abbreviation pos := (Z * Z)%type.

(** Conversion of a Python int to a double, rounding to nearest even as
    CPython does (exact below [2 ^ 53], which covers every coordinate a
    board can hold). *)
Definition float_of_Z (z : Z) : float :=
  SF2Prim (binary_normalize prec emax z 0 false).

(** The values the helpers pass around: the string default of [_slope]
    and numbers.  An int is kept as the double of the same value: the
    helpers only ever compare numbers with [==] and [in], and Python's
    [==] does not tell [0] from [0.0] or [-1] from [-1.0]. *)
Inductive pyval :=
  | PyStr (s : string)
  | PyNum (f : float).

(** Python's [==] on these values. *)
Definition py_eq (a b : pyval) : bool :=
  match a, b with
  | PyStr s, PyStr t => bool_decide (s = t)
  | PyNum f, PyNum g => PrimFloat.eqb f g
  | _, _ => false
  end.

(** ** Geometry helpers *)

(** [_check_range(move, min_=0, max_=8)] *)
Definition _check_range_in (move : pos) (min_ max_ : Z) : bool :=
  (min_ <=? move.1) && (move.1 <? max_) && (min_ <=? move.2) && (move.2 <? max_).

Definition _check_range (move : pos) : bool := _check_range_in move 0 8.

(** [_safe_divide(a, b, default=0)]: [default] when [b == 0], else the
    true division [a / b]. *)
Definition _safe_divide (a b : float) (default : pyval) : pyval :=
  if PrimFloat.eqb b 0%float then default else PyNum (a / b)%float.

(** [_slope(start, end)] *)
Definition _slope (start end_ : pos) : pyval :=
  _safe_divide (float_of_Z (start.2 - end_.2)) (float_of_Z (start.1 - end_.1))
    (PyStr "vertical").

(** [_line(end, start=start)], the only way the repository calls [_line]:
    [start] is a 2-tuple, hence truthy, and the slope is derived from it.
    [slope is "vertical"] compares with the interned literal the default
    of [_slope] is; for any other string Python's [slope * n] is a string
    and never equals the int on the left. *)
Definition _line (end_ start : pos) : Z → Z → bool :=
  let slope := _slope start end_ in
  match slope with
  | PyStr s =>
      if bool_decide (s = "vertical") then λ x y, x =? end_.1
      else λ x y, false
  | PyNum k =>
      λ x y, PrimFloat.eqb (float_of_Z (y - end_.2)) (k * float_of_Z (x - end_.1))%float
  end.

(** [_diff_points(start, end)] *)
Definition _diff_points (start end_ : pos) : pyval * pyval :=
  let x := start.1 - end_.1 in
  let y := start.2 - end_.2 in
  (_safe_divide (float_of_Z x) (PrimFloat.abs (float_of_Z x)) (PyNum 0),
   _safe_divide (float_of_Z y) (PrimFloat.abs (float_of_Z y)) (PyNum 0)).

(** Python's [==] on the pairs [_diff_points] returns. *)
Definition diff_eq (d e : pyval * pyval) : bool :=
  py_eq d.1 e.1 && py_eq d.2 e.2.

(** Python's lexicographic [<=] and [>=] on 2-tuples of ints. *)
Definition tuple_le (a b : pos) : bool :=
  if a.1 =? b.1 then a.2 <=? b.2 else a.1 <? b.1.

Definition tuple_ge (a b : pos) : bool :=
  if a.1 =? b.1 then a.2 >=? b.2 else a.1 >? b.1.

(** [_end_point_check(diff)] *)
Definition _end_point_check (diff : pyval * pyval) : pos → pos → bool :=
  if py_eq (PyNum (-1)) diff.1 || py_eq (PyNum (-1)) diff.2
  then λ move end_, tuple_le move end_
  else λ move end_, tuple_ge move end_.

(** ** Pieces and the object store *)

(** A reference to a piece object. *)
Abbreviation ref := nat.

(** The class of a piece, with the fields only that class has: a Pawn's
    [y_initial] and [y_add], a Queen's [_rook] and [_bishop]. *)
Inductive class :=
  | CRook
  | CBishop
  | CKnight
  | CPawn (y_initial y_add : Z)
  | CKing
  | CQueen (_rook _bishop : ref).

(** A Python [str] object.  [chars] is what it spells; [copy] tells apart
    the objects that spell the same, of which the interpreter may hold
    one or several (a literal of the module, a string decoded from a
    message, the result of a concatenation).  An object is named by the
    two together. *)
Record str := mkStr {
  chars : string;
  copy : nat;
}.

#[global] Instance str_eq_dec : EqDecision str.
Proof. solve_decision. Defined.

(** [s == t]: the two objects spell the same. *)
Definition str_eq (s t : str) : bool := bool_decide (chars s = chars t).

(** [s is t]: the two are one object. *)
Definition str_is (s t : str) : bool := bool_decide (s = t).

Record Piece := mkPiece {
  cls : class;
  color : str;
  position : pos;
}.

(** The store: every reference denotes an object. *)
Abbreviation heap := (ref → Piece).

(** A board cell: [None] or a piece.  The board may lack a key, and
    [board[k]] then raises [KeyError]. *)
Abbreviation cell := (option ref).
Abbreviation board := (gmap pos cell).

Definition set_position (p : Piece) (end_ : pos) : Piece :=
  {| cls := cls p; color := color p; position := end_ |}.

(** ** Destination generation *)

(** [range(a, b)] *)
Definition range (a b : Z) : list Z := seqZ a (b - a).

(** [itertools.product] of two lists *)
Definition product (l1 l2 : list Z) : list pos :=
  a ← l1; b ← l2; [(a, b)].

(** The tuples that meet in [moves - {args}]: the squares of [moves] and
    the wrapper's argument tuple [(self, x, y)]. *)
Inductive tuple :=
  | Square (p : pos)
  | Args (self : ref) (x y : Z).

#[global] Instance tuple_eq_dec : EqDecision tuple.
Proof. solve_decision. Defined.

#[global] Instance tuple_countable : Countable tuple.
Proof.
  refine (inj_countable'
    (λ t, match t with Square p => inl p | Args s x y => inr (s, x, y) end)
    (λ e, match e with inl p => Square p | inr (s, x, y) => Args s x y end) _).
  by intros [].
Defined.

Definition as_square (t : tuple) : option pos :=
  match t with Square p => Some p | Args _ _ _ => None end.

(** [_clean_moves(f)]: [f]'s squares that are in range, minus the set
    whose one element is [args], the tuple of all the call's positional
    arguments. *)
Definition _clean_moves (f : ref → Z → Z → gset pos) (self : ref) (x y : Z) : gset pos :=
  let moves := f self x y in
  let args := Args self x y in
  let in_range : gset tuple := set_map Square (filter (λ move, _check_range move) moves) in
  set_omap as_square (in_range ∖ {[ args ]}).


(** ** Results of [check_move] *)

(** The exceptions the rules engine can raise: a board without the key
    looked up, and iteration over a value that is not a set. *)
Inductive exn :=
  | KeyError
  | TypeError.

Inductive result (A : Type) :=
  | Return (a : A)
  | Raise (e : exn).
Arguments Return {A} a.
Arguments Raise {A} e.

#[global] Instance result_ret : MRet result := λ A a, Return a.
#[global] Instance result_bind : MBind result :=
  λ A B k m, match m with Return a => k a | Raise e => Raise e end.

(** What a decorated [check_move] returns: [False] or a set of squares. *)
Inductive ret :=
  | PyFalse
  | PySet (moves : gset pos).

(** Python's truth value: [False] and the empty set are falsy. *)
Definition truthy (r : ret) : bool :=
  match r with
  | PyFalse => false
  | PySet moves => negb (bool_decide (moves = ∅))
  end.

(** A [check_move], decorated or not: [(self, end, board)], with the
    store the objects live in. *)
Abbreviation checker := (heap → ref → pos → board → result ret).

(** [board[k]] *)
Definition getitem (b : board) (k : pos) : result cell :=
  match b !! k with
  | Some c => Return c
  | None => Raise KeyError
  end.

(** ** The decorators of [check_move] *)

(** [_filter_line(f)] *)
Definition _filter_line (f : checker) : checker := λ h self end_ b,
  moves ← f h self end_ b;
  let start := position (h self) in
  let in_line := _line end_ start in
  let diff := _diff_points start end_ in
  let start_check := λ _move, diff_eq (_diff_points start _move) diff in
  let end_check := _end_point_check diff in
  match moves with
  | PyFalse => Raise TypeError
  | PySet moves =>
      Return (PySet (filter (λ move : pos,
        in_line move.1 move.2 && start_check move && end_check move end_ = true) moves))
  end.

(** [{i for i in moves if board[i] is None}]: every [board[i]] is looked
    up, so one missing key raises. *)
Definition empty_squares (b : board) (moves : gset pos) : result (gset pos) :=
  if bool_decide (set_Forall (λ i, is_Some (b !! i)) moves)
  then Return (filter (λ i, b !! i = Some None) moves)
  else Raise KeyError.

(** [_check_blocks(f)] *)
Definition _check_blocks (f : checker) : checker := λ h self end_ b,
  moves ← f h self end_ b;
  match moves with
  | PyFalse => Return PyFalse
  | PySet squares =>
      if negb (truthy moves) then Return PyFalse
      else
        free ← empty_squares b squares;
        let n := Z.of_nat (size free) in
        let len := Z.of_nat (size squares) in
        if negb (bool_decide (n = len) || bool_decide (n = len - 1))
        then Return PyFalse
        else Return moves
  end.

(** [item_at_end is not None and piece.color is item_at_end.color]: the
    two colors are compared with [is], so an occupant whose color spells
    the same as the mover's and is another object does not count. *)
Definition same_color (h : heap) (self : ref) (item_at_end : cell) : bool :=
  match item_at_end with
  | None => false
  | Some other => str_is (color (h self)) (color (h other))
  end.

(** [end in moves] *)
Definition contains (end_ : pos) (moves : ret) : bool :=
  match moves with
  | PyFalse => false
  | PySet squares => bool_decide (end_ ∈ squares)
  end.

(** [_check_move_found(f)] *)
Definition _check_move_found (f : checker) : checker := λ h self end_ b,
  moves ← f h self end_ b;
  item_at_end ← getitem b end_;
  if negb (truthy moves) then Return PyFalse
  else if negb (contains end_ moves) then Return PyFalse
  else if same_color h self item_at_end then Return PyFalse
  else Return moves.

(** ** The piece classes *)

(** [Piece.move(end, board)] on the store and the board. *)
Definition Piece_move (self : ref) (end_ : pos) (st : heap * board) : heap * board :=
  let '(h, b) := st in
  let b := <[position (h self) := None]> b in
  let h := <[self := set_position (h self) end_]> h in
  let b := <[end_ := Some self]> b in
  (h, b).

Definition Rook_find_body (self : ref) (x y : Z) : gset pos :=
  list_to_set ((λ i, (x, i)) <$> range 0 8) ∪ list_to_set ((λ i, (i, y)) <$> range 0 8).

Definition Rook_find := _clean_moves Rook_find_body.

Definition Bishop_possible (x y k : Z) : list pos :=
  [(x + k, y + k); (x + k, y - k); (x - k, y + k); (x - k, y - k)].

Definition Bishop_find_body (self : ref) (x y : Z) : gset pos :=
  list_to_set (i ← range 1 8; Bishop_possible x y i).

Definition Bishop_find := _clean_moves Bishop_find_body.

Definition Knight_find_body (self : ref) (x y : Z) : gset pos :=
  list_to_set (product [x - 1; x + 1] [y - 2; y + 2]
               ++ product [x - 2; x + 2] [y - 1; y + 1]).

Definition Knight_find := _clean_moves Knight_find_body.

(** [Pawn.__init__]: the fields derived from the color, which is
    compared with [==].  [player_down] is [game.player_down], a constant
    of the [game] package. *)
Definition Pawn_init (player_down : str) (color : str) (position : pos) : Piece :=
  let '(y_initial, y_add) :=
    if str_eq color player_down then (6, -1) else (1, 1) in
  {| cls := CPawn y_initial y_add; color := color; position := position |}.

Definition Pawn_find_body (y_initial y_add : Z) (self : ref) (x y : Z) : gset pos :=
  let moves : gset pos := {[ (x, y + y_add) ]} in
  if bool_decide (y = y_initial) then moves ∪ {[ (x, y + y_add * 2) ]} else moves.

Definition Pawn_find (y_initial y_add : Z) := _clean_moves (Pawn_find_body y_initial y_add).

Definition King_find_body (self : ref) (x y : Z) : gset pos :=
  list_to_set (product [x - 1; x + 1; x] [y + 1; y - 1; y]).

Definition King_find := _clean_moves King_find_body.

(** [Queen.find]: [self._bishop] and [self._rook] are the Bishop and the
    Rook that [Queen.__init__] builds and nothing rebinds, so the two
    calls are [Bishop.find] and [Rook.find] on those objects. *)
Definition Queen_find (_rook _bishop : ref) (self : ref) (x y : Z) : gset pos :=
  Bishop_find _bishop x y ∪ Rook_find _rook x y.

(** [self.find(x, y)], dispatched on the class of [self]. *)
Definition find (h : heap) (self : ref) (x y : Z) : gset pos :=
  match cls (h self) with
  | CRook => Rook_find self x y
  | CBishop => Bishop_find self x y
  | CKnight => Knight_find self x y
  | CPawn y_initial y_add => Pawn_find y_initial y_add self x y
  | CKing => King_find self x y
  | CQueen _rook _bishop => Queen_find _rook _bishop self x y
  end.

(** The body all six [check_move] methods share:
    [return self.find( *self.position)]. *)
Definition check_move_body : checker := λ h self end_ b,
  Return (PySet (find h self (position (h self)).1 (position (h self)).2)).

Definition Rook_check_move : checker :=
  _check_move_found (_check_blocks (_filter_line check_move_body)).

Definition Bishop_check_move : checker :=
  _check_move_found (_check_blocks (_filter_line check_move_body)).

Definition Knight_check_move : checker :=
  _check_move_found check_move_body.

Definition Pawn_check_move : checker :=
  _check_blocks (_check_move_found check_move_body).

Definition King_check_move : checker :=
  _check_move_found check_move_body.

Definition Queen_check_move : checker :=
  _filter_line check_move_body.

(** [self.check_move(end, board)], dispatched on the class of [self]. *)
Definition check_move : checker := λ h self end_ b,
  match cls (h self) with
  | CRook => Rook_check_move h self end_ b
  | CBishop => Bishop_check_move h self end_ b
  | CKnight => Knight_check_move h self end_ b
  | CPawn _ _ => Pawn_check_move h self end_ b
  | CKing => King_check_move h self end_ b
  | CQueen _ _ => Queen_check_move h self end_ b
  end.

(** Whether a call of [check_move] reports the move legal: it returns,
    and what it returns is truthy. *)
Definition accepts (r : result ret) : bool :=
  match r with
  | Return v => truthy v
  | Raise _ => false
  end.

(** ** Boards for the examples *)

(** The 64 squares. *)
Definition squares : list pos := x ← range 0 8; y ← range 0 8; [(x, y)].

(** A board is complete when every square is a key. *)
Definition complete (b : board) : Prop := Forall (λ k, is_Some (b !! k)) squares.

(** The board with every square empty. *)
Definition empty_board : board := list_to_map ((λ k, (k, None)) <$> squares).

(** The two color strings of the examples, and a second object that
    spells "white". *)
Definition white : str := mkStr "white" 0.
Definition black : str := mkStr "black" 0.

(** A store whose objects are all one white Rook at (0,0). *)
Definition one_rook : heap := λ _, mkPiece CRook white (0, 0).

(** A white Rook (object 0) at (0,0) and a black Knight (object 1) at
    (0,3); every other square of the board is empty. *)
Definition rook_and_blocker : heap := λ r,
  match r with
  | O => mkPiece CRook white (0, 0)
  | _ => mkPiece CKnight black (0, 3)
  end.

Definition blocked_file : board :=
  <[(0, 3) := Some 1%nat]> (<[(0, 0) := Some 0%nat]> empty_board).

(** A white Queen (object 0, with its Rook 1 and Bishop 2) at (0,0) and
    two white Knights (objects 3 and 4) at (0,1) and (0,3). *)
Definition queen_side : heap := λ r,
  match r with
  | 0%nat => mkPiece (CQueen 1 2) white (0, 0)
  | 1%nat => mkPiece CRook white (0, 0)
  | 2%nat => mkPiece CBishop white (0, 0)
  | 3%nat => mkPiece CKnight white (0, 1)
  | _ => mkPiece CKnight white (0, 3)
  end.

Definition crowded_file : board :=
  <[(0, 3) := Some 4%nat]> (<[(0, 1) := Some 3%nat]> (<[(0, 0) := Some 0%nat]> empty_board)).

(** A black Pawn (object 0) at (4,4), off its starting rank 6, facing a
    white Knight (object 1) at (4,3). *)
Definition pawn_and_knight : heap := λ r,
  match r with
  | O => mkPiece (CPawn 6 (-1)) black (4, 4)
  | _ => mkPiece CKnight white (4, 3)
  end.

Definition faced_pawn : board :=
  <[(4, 3) := Some 1%nat]> (<[(4, 4) := Some 0%nat]> empty_board).



(** ** The line filter, and its result in integer arithmetic *)

(** The condition of the set comprehension of [_filter_line], for the
    piece at [start] and the destination [end_]:
    [in_line( *move) and start_check(move) and end_check(move, end)]. *)
Definition on_line (start end_ move : pos) : bool :=
  let diff := _diff_points start end_ in
  _line end_ start move.1 move.2
  && diff_eq (_diff_points start move) diff
  && _end_point_check diff move end_.

(** The signs of the two differences, as [_diff_points] is meant to
    return them. *)
Definition signs (start end_ : pos) : pyval * pyval :=
  (PyNum (float_of_Z (Z.sgn (start.1 - end_.1))),
   PyNum (float_of_Z (Z.sgn (start.2 - end_.2)))).

(** [move] is on the line through [start] and [end_], without division:
    the same file when the line is vertical, equal cross products
    otherwise. *)
Definition collinear (start end_ move : pos) : bool :=
  if start.1 =? end_.1 then move.1 =? end_.1
  else (move.2 - end_.2) * (start.1 - end_.1) =? (start.2 - end_.2) * (move.1 - end_.1).

(** The [n] squares after [start] in steps of [(dx, dy)]. *)
Definition steps (start : pos) (dx dy n : Z) : gset pos :=
  list_to_set ((λ k, (start.1 + k * dx, start.2 + k * dy)) <$> seqZ 1 n).

(** What the line filter keeps of a Rook's destinations: the squares
    after [start] up to and including [end_] along the file or the rank;
    [start] alone when [end_] is [start]; nothing when [end_] is on
    neither. *)
Definition rook_path (start end_ : pos) : gset pos :=
  let dx := end_.1 - start.1 in
  let dy := end_.2 - start.2 in
  if bool_decide (dx = 0 ∧ dy = 0) then {[ start ]}
  else if bool_decide (dx = 0 ∨ dy = 0)
  then steps start (Z.sgn dx) (Z.sgn dy) (Z.max (Z.abs dx) (Z.abs dy))
  else ∅.

(** What the line filter keeps of a Bishop's destinations.  Toward a
    lower file and a higher rank it is [end_] and the squares of the
    diagonal beyond it, to the edge of the board; in the three other
    diagonal directions it is the squares after [start] up to and
    including [end_]. *)
Definition bishop_path (start end_ : pos) : gset pos :=
  let dx := end_.1 - start.1 in
  let dy := end_.2 - start.2 in
  if bool_decide (Z.abs dx = Z.abs dy ∧ dx ≠ 0) then
    if bool_decide (dx < 0 ∧ 0 < dy)
    then {[ end_ ]} ∪ filter (λ p, _check_range p) (steps end_ (-1) 1 7)
    else steps start (Z.sgn dx) (Z.sgn dy) (Z.abs dx)
  else ∅.

(** The squares of [path] that are not empty on the board. *)
Definition occupied (b : board) (path : gset pos) : gset pos :=
  filter (λ i, ¬ (b !! i = Some None)) path.

(** The condition [on_line] in integer arithmetic: on the line, on the
    side of [start] where [end_] is, and not past [end_] in the order of
    tuples. *)
Definition on_line_exact (start end_ move : pos) : bool :=
  collinear start end_ move
  && (Z.sgn (start.1 - move.1) =? Z.sgn (start.1 - end_.1))
  && (Z.sgn (start.2 - move.2) =? Z.sgn (start.2 - end_.2))
  && (if (Z.sgn (start.1 - end_.1) =? -1) || (Z.sgn (start.2 - end_.2) =? -1)
      then tuple_le move end_ else tuple_ge move end_).

(** All triples of squares. *)
Definition triples : list (pos * pos * pos) :=
  s ← squares; e ← squares; p ← squares; [(s, e, p)].

(** Membership tests, for squares of the board: in a Rook's and in a
    Bishop's destinations from [start], and in the two paths. *)
Definition in_rook_find (start p : pos) : bool :=
  (p.1 =? start.1) || (p.2 =? start.2).

Definition in_bishop_find (start p : pos) : bool :=
  (Z.abs (p.1 - start.1) =? Z.abs (p.2 - start.2)) && (1 <=? Z.abs (p.1 - start.1)).

Definition in_rook_path (start end_ p : pos) : bool :=
  let dx := end_.1 - start.1 in
  let dy := end_.2 - start.2 in
  if (dx =? 0) && (dy =? 0) then (p.1 =? start.1) && (p.2 =? start.2)
  else if (dx =? 0) || (dy =? 0)
  then (Z.sgn (p.1 - start.1) =? Z.sgn dx) && (Z.sgn (p.2 - start.2) =? Z.sgn dy)
       && (Z.abs (p.1 - start.1) <=? Z.abs dx) && (Z.abs (p.2 - start.2) <=? Z.abs dy)
  else false.

Definition in_bishop_path (start end_ p : pos) : bool :=
  let dx := end_.1 - start.1 in
  let dy := end_.2 - start.2 in
  (Z.abs dx =? Z.abs dy) && negb (dx =? 0)
  && (if (dx <? 0) && (0 <? dy)
      then (p.1 + p.2 =? end_.1 + end_.2) && (p.1 <=? end_.1)
      else (Z.sgn (p.1 - start.1) =? Z.sgn dx) && (Z.sgn (p.2 - start.2) =? Z.sgn dy)
           && (Z.abs (p.1 - start.1) =? Z.abs (p.2 - start.2))
           && (Z.abs (p.1 - start.1) <=? Z.abs dx)).

(** The differences of two coordinates of the board, and all pairs of
    two difference vectors. *)
Definition offsets : list Z := seqZ (-7) 15.

Definition vectors : list (pos * pos) :=
  dx ← offsets; dy ← offsets; qx ← offsets; qy ← offsets; [((dx, dy), (qx, qy))].

(** The board and the pieces agree: a cell that holds a piece is the
    position the piece stores. *)
Definition consistent (h : heap) (b : board) : Prop :=
  ∀ k r, b !! k = Some (Some r) → position (h r) = k.

(** ** More boards for the examples *)

(** A white Bishop (object 0) at (3,3), with white Knights (objects 1
    and 2) at (2,4) and (1,5), on its way to (0,6). *)
Definition bishop_and_friends : heap := λ r,
  match r with
  | 0%nat => mkPiece CBishop white (3, 3)
  | 1%nat => mkPiece CKnight white (2, 4)
  | _ => mkPiece CKnight white (1, 5)
  end.

Definition crowded_diagonal : board :=
  <[(1, 5) := Some 2%nat]> (<[(2, 4) := Some 1%nat]> (<[(3, 3) := Some 0%nat]> empty_board)).

(** A white Knight (object 0) at (4,4) and a black Knight (object 1) at
    (6,5). *)
Definition two_knights : heap := λ r,
  match r with
  | O => mkPiece CKnight white (4, 4)
  | _ => mkPiece CKnight black (6, 5)
  end.

Definition knights_board : board :=
  <[(6, 5) := Some 1%nat]> (<[(4, 4) := Some 0%nat]> empty_board).

(** A white King (object 0) at (4,4) and a black Knight (object 1) at
    (5,5). *)
Definition king_and_knight : heap := λ r,
  match r with
  | O => mkPiece CKing white (4, 4)
  | _ => mkPiece CKnight black (5, 5)
  end.

Definition king_board : board :=
  <[(5, 5) := Some 1%nat]> (<[(4, 4) := Some 0%nat]> empty_board).

(** A black Pawn (object 0) on its starting square (4,6), with a white
    Knight (object 1) right in front of it at (4,5). *)
Definition pawn_at_start : heap := λ r,
  match r with
  | O => mkPiece (CPawn 6 (-1)) black (4, 6)
  | _ => mkPiece CKnight white (4, 5)
  end.

Definition blocked_pawn : board :=
  <[(4, 5) := Some 1%nat]> (<[(4, 6) := Some 0%nat]> empty_board).

(** The board with the white Rook of [one_rook] alone, at (0,0). *)
Definition lone_rook : board := <[(0, 0) := Some 0%nat]> empty_board.

End Moves.

Module Sockets.

(** ** JSON values and the gateway's effects *)

(** What [json.loads] returns: [None] for [null], a bool, an int, a
    float, a str, a list or a dict with str keys. *)
#[warnings="-register-all"]
Inductive json :=
  | JNone
  | JBool (b : bool)
  | JInt (n : Z)
  | JFloat (f : float)
  | JStr (s : string)
  | JList (l : list json)
  | JDict (d : gmap string json).

(** The three handlers [type_funcs] registers. *)
Inductive handler :=
  | join_queue
  | move
  | game_operation.

Definition type_funcs : gmap string handler :=
  {[ "join_queue" := join_queue; "move" := move; "game_operation" := game_operation ]}.

Inductive exn :=
  | Exception (msg : string)
  | TypeError (msg : string)
  | AttributeError (msg : string)
  | KeyError (key : string)
  | ValueError (msg : string)
  | ConnectionError (msg : string).

(** What the gateway does to the outside: closing the connection,
    printing, calling a handler with the connection and [data] and, in
    [join_queue], the call [r_queue.put(id)] and the assignment
    [pending[id] = socket]. *)
Inductive event :=
  | Close (code : Z) (reason : string)
  | Print (data : list Byte.byte)
  | Call (f : handler) (data : json)
  | Put (id : json)
  | Pending (id : json).

Inductive result (A : Type) :=
  | Return (a : A)
  | Raise (e : exn).
Arguments Return {A} a.
Arguments Raise {A} e.

(** A computation with effects: it extends the trace of events and
    returns or raises. *)
Definition io (A : Type) : Type := list event → list event * result A.

#[global] Instance io_ret : MRet io := λ A a t, (t, Return a).
#[global] Instance io_bind : MBind io := λ A B k m t,
  match m t with
  | (t', Return a) => k a t'
  | (t', Raise e) => (t', Raise e)
  end.

Definition lift {A} (r : result A) : io A := λ t, (t, r).
Definition raise {A} (e : exn) : io A := lift (Raise e).
Definition emit (e : event) : io unit := λ t, (t ++ [e], Return tt).

(** [try: m  except: handler; raise] *)
Definition try_except_reraise {A} (m : io A) (handler : io unit) : io A := λ t,
  match m t with
  | (t', Return a) => (t', Return a)
  | (t', Raise e) =>
      match handler t' with
      | (t'', Return _) => (t'', Raise e)
      | (t'', Raise e') => (t'', Raise e')
      end
  end.

(** [_json.get(key, None)]: only a dict has [get]. *)
Definition get (_json : json) (key : string) : io json :=
  match _json with
  | JDict d => mret (default JNone (d !! key))
  | _ => raise (AttributeError "object has no attribute 'get'")
  end.

(** [x not in type_funcs.keys()]: the lookup hashes [x], which a list or
    a dict refuses; a key is a str, and only an equal str is found. *)
Definition not_in_keys (x : json) : io bool :=
  match x with
  | JList _ | JDict _ => raise (TypeError "unhashable type")
  | JStr s => mret (negb (bool_decide (is_Some (type_funcs !! s))))
  | _ => mret true
  end.

(** [x is None] *)
Definition is_None (x : json) : bool :=
  match x with JNone => true | _ => false end.

(** ** [CoolSocket] *)

(** [_parse_input(self, _json)].  The message formats [repr(type)], the
    builtin, not [_type]. *)
Definition _parse_input (_json : json) : io (json * json) :=
  _type ← get _json "type";
  data ← get _json "data";
  unexpected ← not_in_keys _type;
  if (unexpected : bool) then raise (Exception "Unexpected type <class 'type'>")
  else if is_None data then raise (Exception "No data provided")
  else mret (_type, data).

(** [type_funcs[_type]]; [_process_message] only gets here with a
    [_type] that [_parse_input] found among the keys. *)
Definition getitem (_type : json) : io handler :=
  match _type with
  | JList _ | JDict _ => raise (TypeError "unhashable type")
  | JStr s =>
      match type_funcs !! s with
      | Some f => mret f
      | None => raise (KeyError s)
      end
  | _ => raise (KeyError "")
  end.

(** [data[key]] for a str [key]: a dict looks the key up; a list and a
    str want an integer index; the other values cannot be subscripted. *)
Definition subscript (data : json) (key : string) : io json :=
  match data with
  | JDict d =>
      match d !! key with
      | Some v => mret v
      | None => raise (KeyError key)
      end
  | JList _ | JStr _ => raise (TypeError "indices must be integers")
  | _ => raise (TypeError "object is not subscriptable")
  end.

(** [pending[id] = socket]: the dict hashes [id], which a list or a dict
    refuses. *)
Definition set_pending (id : json) : io unit :=
  match id with
  | JList _ | JDict _ => raise (TypeError "unhashable type")
  | _ => emit (Pending id)
  end.

Section gateway.

(** [r_queue.put(id)]: the class [RedisQueue] is not among the sources;
    whether the call returns or raises is a parameter. *)
Variable put : json → result unit.

(** [f(self, data)] for a handler of [type_funcs]: [move] and
    [game_operation] are [pass]; [join_queue] reads [data["id"]], puts
    it on the queue and records the connection under it. *)
Definition call (f : handler) (data : json) : io unit :=
  emit (Call f data);;
  match f with
  | join_queue =>
      id ← subscript data "id";
      emit (Put id);;
      lift (put id);;
      set_pending id
  | move => mret tt
  | game_operation => mret tt
  end.

(** [_process_message(self, _json)] *)
Definition _process_message (_json : json) : io unit :=
  '(_type, data) ← _parse_input _json;
  f ← getitem _type;
  call f data.

(** [json.loads(data.decode("utf-8"))], of the standard library: the
    decoded value, or the exception of the decoder. *)
Variable loads : list Byte.byte → result json.

(** [self.close(code=1000, reason='')], of the socket library: it sends
    the closing frame and returns. *)
Definition close (code : Z) (reason : string) : io unit := emit (Close code reason).

(** [received_message(self, message)], on [message.data] *)
Definition received_message (data : list Byte.byte) : io unit :=
  (if bool_decide (1000 < Z.of_nat (length data))
   then close 1856 "message too long" else mret tt);;
  emit (Print data);;
  _json ← try_except_reraise (lift (loads data)) (close 1000 "Input is not json");
  _process_message _json.

End gateway.

(** ** The protocol's words *)

(** [type] is one of the three message types. *)
Definition valid_type (x : json) : Prop :=
  x = JStr "join_queue" ∨ x = JStr "move" ∨ x = JStr "game_operation".

(** Python can hash every JSON value but a list and a dict. *)
Definition hashable (x : json) : Prop :=
  match x with
  | JList _ | JDict _ => False
  | _ => True
  end.

(** What a handler does after it was called: the events of
    [join_queue] on the queue and on [pending]. *)
Definition handler_event (e : event) : Prop :=
  match e with
  | Put _ | Pending _ => True
  | _ => False
  end.

(** The two errors of [_parse_input]. *)
Definition unexpected_type : exn := Exception "Unexpected type <class 'type'>".
Definition missing_data : exn := Exception "No data provided".

(** ** Frames for the examples *)

(** A [move] message with data 1, and a frame of 1001 bytes that holds
    it: the 24 bytes of the JSON text, then 977 spaces. *)
Definition move_message : json :=
  JDict {[ "type" := JStr "move"; "data" := JInt 1 ]}.

Definition oversized_frame : list Byte.byte :=
  [Byte.x7b; Byte.x22; Byte.x74; Byte.x79; Byte.x70; Byte.x65; Byte.x22; Byte.x3a;
   Byte.x22; Byte.x6d; Byte.x6f; Byte.x76; Byte.x65; Byte.x22; Byte.x2c;
   Byte.x22; Byte.x64; Byte.x61; Byte.x74; Byte.x61; Byte.x22; Byte.x3a;
   Byte.x31; Byte.x7d] ++ replicate 977 Byte.x20.

(** A decoder that knows that one frame. *)
Definition loads_move (bytes : list Byte.byte) : result json :=
  if list_eq_dec Byte.byte_eq_dec bytes oversized_frame
  then Return move_message
  else Raise (ValueError "Expecting value").

(** A message whose type is a list. *)
Definition list_typed_message : json :=
  JDict {[ "type" := JList []; "data" := JInt 1 ]}.

(** A queue that takes every identifier, and one that cannot be
    reached. *)
Definition queue_up : json → result unit := λ _, Return tt.
Definition queue_down : json → result unit := λ _, Raise (ConnectionError "Connection refused").

End Sockets.

(** * Properties of the rules engine *)

Module MovesSpec.
Import Moves.

(** ** The geometry helpers on small inputs *)

Example float_of_Z_small :
  float_of_Z 3 = 3%float ∧ float_of_Z (-7) = (-7)%float ∧ float_of_Z 0 = 0%float.
Proof. repeat split; by vm_compute. Qed.

(** The two examples of the docstring of [_diff_points]. *)
Example diff_points_docstring :
  _diff_points (3, 3) (5, 5) = (PyNum (-1), PyNum (-1))
  ∧ _diff_points (3, 3) (0, 0) = (PyNum 1, PyNum 1).
Proof. split; by vm_compute. Qed.

Example slope_examples :
  _slope (0, 0) (0, 3) = PyStr "vertical"
  ∧ _slope (0, 0) (3, 3) = PyNum 1
  ∧ _slope (3, 3) (5, 1) = PyNum (-1)
  ∧ _slope (0, 0) (5, 0) = PyNum (-0).
Proof. repeat split; by vm_compute. Qed.

Example line_examples :
  _line (3, 3) (0, 0) 2 2 = true
  ∧ _line (3, 3) (0, 0) 2 1 = false
  ∧ _line (0, 3) (0, 0) 0 7 = true
  ∧ _line (0, 3) (0, 0) 1 3 = false.
Proof. repeat split; by vm_compute. Qed.

(** ** The decorator of [find] *)

(** The set [{args}] holds a 3-tuple and [moves] holds 2-tuples, so the
    difference removes nothing: [_clean_moves] is the range filter. *)
Lemma clean_moves_filter (f : ref → Z → Z → gset pos) self x y :
  _clean_moves f self x y = filter (λ move, _check_range move) (f self x y).
Proof.
  unfold _clean_moves. apply set_eq. intros p.
  rewrite elem_of_set_omap. split.
  - intros (t & Ht & Hp). apply elem_of_difference in Ht as [Ht _].
    apply elem_of_map in Ht as (q & -> & Hq). simpl in Hp. by simplify_eq.
  - intros Hp. exists (Square p). split; [|done].
    apply elem_of_difference. split.
    + apply elem_of_map. by exists p.
    + rewrite elem_of_singleton. discriminate.
Qed.

Lemma check_range_spec (p : pos) :
  _check_range p = true ↔ (0 ≤ p.1 < 8 ∧ 0 ≤ p.2 < 8).
Proof. unfold _check_range, _check_range_in. destruct p as [a b]. simpl. lia. Qed.

Lemma elem_of_clean_moves (f : ref → Z → Z → gset pos) self x y p :
  p ∈ _clean_moves f self x y ↔ p ∈ f self x y ∧ 0 ≤ p.1 < 8 ∧ 0 ≤ p.2 < 8.
Proof.
  rewrite clean_moves_filter, elem_of_filter, Is_true_true, check_range_spec. tauto.
Qed.

(** ** Destination sets *)

Lemma rook_find_own_square self x y :
  0 ≤ x < 8 → 0 ≤ y < 8 → (x, y) ∈ Rook_find self x y.
Proof.
  intros Hx Hy. apply elem_of_clean_moves. split; [|done].
  unfold Rook_find_body, range. apply elem_of_union_l, elem_of_list_to_set.
  apply list_elem_of_fmap. exists y. split; [done|]. apply elem_of_seqZ. lia.
Qed.

(** C2 (the code departs from it): [find] keeps the piece's own square.
    For a Rook at (0,0) the result holds (0,0) and has 15 squares, the 8
    of file 0 and the 8 of rank 0 that share (0,0); the own square is
    not removed.  A King's result holds its own square as well. *)
Theorem rook_find_origin_keeps_own_square (self : ref) :
  (0, 0) ∈ Rook_find self 0 0
  ∧ size (Rook_find self 0 0) = 15%nat
  ∧ Rook_find self 0 0
    = list_to_set ((λ i, (0, i)) <$> range 0 8) ∪ list_to_set ((λ i, (i, 0)) <$> range 0 8)
  ∧ (4, 4) ∈ King_find self 4 4.
Proof.
  split; [by apply rook_find_own_square|].
  unfold Rook_find, King_find. rewrite !clean_moves_filter.
  repeat split; by vm_compute.
Qed.

(** Case analysis on the class of [self], after [find] is unfolded: a
    Queen's set is a union of two cleaned sets, every other one is a
    cleaned set. *)
Ltac find_cases h self :=
  unfold find, Queen_find, Rook_find, Bishop_find, Knight_find, Pawn_find, King_find;
  destruct (cls (h self)); rewrite ?elem_of_union.

(** C7: every destination [find] returns, for any class of piece and any
    starting position, has both coordinates in [0,8); a square with a
    coordinate outside [0,8) is in no destination set. *)
Theorem find_in_range (h : heap) (self : ref) (x y : Z) (p : pos) :
  p ∈ find h self x y → 0 ≤ p.1 < 8 ∧ 0 ≤ p.2 < 8.
Proof.
  find_cases h self; rewrite !elem_of_clean_moves; tauto.
Qed.

Lemma find_in_range_witness :
  (0, 3) ∈ find one_rook 0%nat 0 0 ∧ (0 ≤ 0 < 8 ∧ 0 ≤ 3 < 8).
Proof.
  assert (Hin : (0, 3) ∈ find one_rook 0%nat 0 0).
  { unfold find. simpl. unfold Rook_find. rewrite clean_moves_filter.
    apply (bool_decide_unpack _). by vm_compute. }
  split; [exact Hin|]. exact (find_in_range one_rook 0%nat 0 0 (0, 3) Hin).
Defined.

(** ** [Piece.move] *)

(** C5: [move] empties the cell of the old position, stores [end] in
    the piece and stores the piece at [board[end]]; no other cell
    changes.  The three assignments run in this order, so when [end] is
    the old position that cell ends up holding the piece. *)
Theorem piece_move_effect (h : heap) (b : board) (self : ref) (end_ : pos) :
  let old := position (h self) in
  let h' := (Piece_move self end_ (h, b)).1 in
  let b' := (Piece_move self end_ (h, b)).2 in
  b' = <[end_ := Some self]> (<[old := None]> b)
  ∧ <[old := None]> b !! old = Some None
  ∧ position (h' self) = end_
  ∧ b' !! end_ = Some (Some self)
  ∧ (old ≠ end_ → b' !! old = Some None)
  ∧ (∀ k, k ≠ old → k ≠ end_ → b' !! k = b !! k)
  ∧ cls (h' self) = cls (h self)
  ∧ color (h' self) = color (h self)
  ∧ (∀ r, r ≠ self → h' r = h r).
Proof.
  simpl. repeat split.
  - apply lookup_insert_eq.
  - by rewrite fn_lookup_insert.
  - apply lookup_insert_eq.
  - intros Hne. rewrite lookup_insert_ne by done. apply lookup_insert_eq.
  - intros k Hold Hend. by rewrite !lookup_insert_ne.
  - by rewrite fn_lookup_insert.
  - by rewrite fn_lookup_insert.
  - intros r Hr. by rewrite fn_lookup_insert_ne.
Qed.

(** ** Pawns *)

Lemma pawn_find_off_rank y_initial y_add self x y :
  y ≠ y_initial → 0 ≤ x < 8 → 0 ≤ y + y_add < 8 →
  Pawn_find y_initial y_add self x y = {[ (x, y + y_add) ]}.
Proof.
  intros Hy Hx Hf. unfold Pawn_find. rewrite clean_moves_filter.
  unfold Pawn_find_body. rewrite bool_decide_false by done.
  apply (filter_singleton_True_L (C := gset pos)); [apply _|].
  apply Is_true_true, check_range_spec. simpl. lia.
Qed.

(** C8: a Pawn whose color equals the "down" color has starting rank 6
    and increment -1, any other Pawn rank 1 and increment +1; the "down"
    Pawn at (4,6) can go to (4,5) and (4,4), and once moved to (4,5)
    only to (4,4); the two-square destination is in the set exactly on
    the starting rank. *)
Theorem pawn_two_square_option (player_down : str) :
  (∀ color position,
     cls (Pawn_init player_down color position)
     = if bool_decide (chars color = chars player_down) then CPawn 6 (-1) else CPawn 1 1)
  ∧ (∀ (h : heap) (self : ref) (b : board) (color : str),
       chars color = chars player_down →
       let h0 := <[self := Pawn_init player_down color (4, 6)]> h in
       let h1 := (Piece_move self (4, 5) (h0, b)).1 in
       find h0 self 4 6 = {[ (4, 5); (4, 4) ]}
       ∧ position (h1 self) = (4, 5)
       ∧ find h1 self 4 5 = {[ (4, 4) ]})
  ∧ (∀ color position (self : ref) x y,
       match cls (Pawn_init player_down color position) with
       | CPawn y_initial y_add =>
           (x, y + y_add * 2) ∈ Pawn_find y_initial y_add self x y
           ↔ y = y_initial ∧ 0 ≤ x < 8
       | _ => False
       end).
Proof.
  split; [|split].
  - intros color position. unfold Pawn_init, str_eq. by case_bool_decide.
  - intros h self b color Hcolor. simpl. unfold find. rewrite !fn_lookup_insert. simpl.
    unfold Pawn_init, str_eq. rewrite bool_decide_true by done. simpl.
    split; [|split; [done|]].
    + unfold Pawn_find. rewrite clean_moves_filter. by vm_compute.
    + by rewrite pawn_find_off_rank.
  - intros color position self x y. unfold Pawn_init.
    destruct (str_eq color player_down); simpl; unfold Pawn_find; rewrite elem_of_clean_moves;
      unfold Pawn_find_body; case_bool_decide;
      rewrite ?elem_of_union, !elem_of_singleton, !pair_equal_spec; simpl; lia.
Qed.

Lemma truthy_singleton (e : pos) : truthy (PySet {[ e ]}) = true.
Proof.
  simpl. rewrite bool_decide_false; [done|].
  intros He. assert (e ∈ (∅ : gset pos)) as Hin by (rewrite <- He; by apply elem_of_singleton).
  by apply not_elem_of_empty in Hin.
Qed.

Lemma empty_squares_occupied (b : board) (e : pos) (other : ref) :
  b !! e = Some (Some other) → empty_squares b {[ e ]} = Return ∅.
Proof.
  intros Hb. unfold empty_squares. rewrite bool_decide_true.
  - f_equal. apply (filter_singleton_False_L (C := gset pos)); [apply _|]. by rewrite Hb.
  - apply set_Forall_singleton. by rewrite Hb.
Qed.

(** C10: a Pawn off its starting rank whose forward square holds a piece
    of another color may move straight onto it: [check_move] returns
    the one-square set, which is truthy. *)
Theorem pawn_straight_capture (h : heap) (b : board) (self other : ref)
    (y_initial y_add x y : Z) :
  cls (h self) = CPawn y_initial y_add →
  position (h self) = (x, y) →
  y ≠ y_initial →
  0 ≤ x < 8 → 0 ≤ y + y_add < 8 →
  b !! (x, y + y_add) = Some (Some other) →
  chars (color (h self)) ≠ chars (color (h other)) →
  check_move h self (x, y + y_add) b = Return (PySet {[ (x, y + y_add) ]})
  ∧ accepts (check_move h self (x, y + y_add) b) = true.
Proof.
  intros Hcls Hpos Hy Hx Hf Hb Hcol.
  assert (Hres : check_move h self (x, y + y_add) b = Return (PySet {[ (x, y + y_add) ]})).
  { unfold check_move. rewrite Hcls.
    unfold Pawn_check_move, _check_blocks, _check_move_found, check_move_body, find.
    rewrite Hcls, Hpos. cbn [fst snd mbind result_bind].
    rewrite pawn_find_off_rank by done.
    unfold getitem. rewrite Hb, truthy_singleton.
    cbn [negb contains same_color mbind result_bind].
    rewrite (bool_decide_true (_ ∈ _)) by (by apply elem_of_singleton).
    unfold str_is. rewrite (bool_decide_false (color _ = _)) by congruence.
    cbn [negb mbind result_bind]. rewrite truthy_singleton.
    rewrite (empty_squares_occupied b _ other) by done.
    cbn [negb mbind result_bind].
    rewrite size_empty, size_singleton.
    rewrite (bool_decide_true (_ = _ - 1)) by done. by rewrite orb_true_r. }
  split; [done|]. rewrite Hres. apply truthy_singleton.
Qed.

Lemma pawn_straight_capture_witness :
  check_move pawn_and_knight 0%nat (4, 4 + -1) faced_pawn = Return (PySet {[ (4, 4 + -1) ]})
  ∧ accepts (check_move pawn_and_knight 0%nat (4, 4 + -1) faced_pawn) = true.
Proof.
  apply (pawn_straight_capture pawn_and_knight faced_pawn 0%nat 1%nat 6 (-1) 4 4);
    try reflexivity; try lia; try discriminate.
Defined.

(** ** Sliding pieces *)

Lemma in_range_squares (p : pos) : 0 ≤ p.1 < 8 → 0 ≤ p.2 < 8 → p ∈ squares.
Proof.
  destruct p as [x y]. simpl. intros Hx Hy. unfold squares, range.
  apply list_elem_of_bind. exists x. split; [|apply elem_of_seqZ; lia].
  apply list_elem_of_bind. exists y. split; [|apply elem_of_seqZ; lia].
  by apply list_elem_of_singleton.
Qed.

Lemma find_squares (h : heap) (self : ref) (x y : Z) (p : pos) :
  p ∈ find h self x y → p ∈ squares.
Proof.
  find_cases h self; rewrite !elem_of_clean_moves;
    intros; apply in_range_squares; tauto.
Qed.

Lemma complete_lookup (b : board) (p : pos) :
  complete b → p ∈ squares → is_Some (b !! p).
Proof.
  intros Hb Hp. unfold complete in Hb. rewrite list.Forall_forall in Hb. by apply Hb.
Qed.

(** On its own the line filter returns: a subset of [find]'s squares. *)
Lemma filter_line_returns (h : heap) (self : ref) (end_ : pos) (b : board) :
  ∃ squares, _filter_line check_move_body h self end_ b = Return (PySet squares)
             ∧ squares ⊆ find h self (position (h self)).1 (position (h self)).2.
Proof.
  eexists. split; [reflexivity|]. intros p Hp. by apply elem_of_filter in Hp as [_ ?].
Qed.

(** On a complete board the blocking check of a sliding piece returns. *)
Lemma check_blocks_returns (h : heap) (self : ref) (end_ : pos) (b : board) :
  complete b →
  ∃ r, _check_blocks (_filter_line check_move_body) h self end_ b = Return r.
Proof.
  intros Hb. destruct (filter_line_returns h self end_ b) as (sq & Heq & Hsub).
  unfold _check_blocks. rewrite Heq. cbn [mbind result_bind].
  destruct (negb (truthy (PySet sq))); [by eexists|].
  unfold empty_squares. rewrite bool_decide_true.
  - cbn [mbind result_bind]. destruct (negb _); by eexists.
  - intros p Hp. apply Hsub, find_squares in Hp. by apply complete_lookup.
Qed.



Lemma empty_board_complete : complete empty_board.
Proof. apply (bool_decide_unpack _). by vm_compute. Qed.

Lemma complete_insert (b : board) (k : pos) (c : cell) : complete b → complete (<[k := c]> b).
Proof.
  unfold complete. rewrite !list.Forall_forall. intros Hb p Hp.
  destruct (decide (k = p)) as [->|Hne].
  - rewrite lookup_insert_eq. by eexists.
  - rewrite lookup_insert_ne by done. by apply Hb.
Qed.


(** C1 (the code departs from it): with a black piece at (0,3) and file
    0 otherwise empty, the white Rook at (0,0) may capture on (0,3), and
    [check_move] also accepts (0,5), beyond the blocker: the blocking
    check allows one occupied square anywhere on the path, not only at
    its far end. *)
Theorem rook_moves_past_blocker :
  check_move rook_and_blocker 0%nat (0, 3) blocked_file
  = Return (PySet (list_to_set [(0, 1); (0, 2); (0, 3)]))
  ∧ accepts (check_move rook_and_blocker 0%nat (0, 3) blocked_file) = true
  ∧ check_move rook_and_blocker 0%nat (0, 5) blocked_file
    = Return (PySet (list_to_set [(0, 1); (0, 2); (0, 3); (0, 4); (0, 5)]))
  ∧ accepts (check_move rook_and_blocker 0%nat (0, 5) blocked_file) = true.
Proof.
  assert (Hfind : ∀ self, Rook_find self 0 0 = filter (λ move, _check_range move) (Rook_find_body self 0 0))
    by (intros; apply clean_moves_filter).
  unfold check_move, Rook_check_move, _check_move_found, _check_blocks, _filter_line,
    check_move_body, find. cbn [rook_and_blocker cls position fst snd].
  rewrite Hfind. repeat split; by vm_compute.
Qed.

(** C3: [Queen.check_move] is the line filter alone on the union of the
    Bishop's and the Rook's destinations; its result does not depend on
    the board, so a Queen is reported free to pass an occupied square
    and to land on a piece of its own color, where a Rook is refused. *)
Theorem queen_check_move_ignores_board :
  (∀ h self end_ (b1 b2 : board),
     Queen_check_move h self end_ b1 = Queen_check_move h self end_ b2)
  ∧ (∀ h self end_ (b : board) _rook _bishop,
       cls (h self) = CQueen _rook _bishop →
       check_move h self end_ b
       = _filter_line (λ h self _ _,
           Return (PySet (Bishop_find _bishop (position (h self)).1 (position (h self)).2
                          ∪ Rook_find _rook (position (h self)).1 (position (h self)).2)))
           h self end_ b)
  ∧ (crowded_file !! (0, 1) = Some (Some 3%nat)
     ∧ crowded_file !! (0, 3) = Some (Some 4%nat)
     ∧ color (queen_side 4%nat) = color (queen_side 0%nat)
     ∧ check_move queen_side 0%nat (0, 3) crowded_file
       = Return (PySet (list_to_set [(0, 1); (0, 2); (0, 3)]))
     ∧ accepts (check_move queen_side 0%nat (0, 3) crowded_file) = true
     ∧ check_move queen_side 1%nat (0, 3) crowded_file = Return PyFalse).
Proof.
  split; [done|]. split.
  - intros h self end_ b _rook _bishop Hcls.
    unfold check_move, Queen_check_move, _filter_line, check_move_body, find.
    by rewrite Hcls.
  - assert (Hrook : ∀ self x y, Rook_find self x y = filter (λ move, _check_range move) (Rook_find_body self x y))
      by (intros; apply clean_moves_filter).
    assert (Hbishop : ∀ self x y, Bishop_find self x y = filter (λ move, _check_range move) (Bishop_find_body self x y))
      by (intros; apply clean_moves_filter).
    unfold check_move, Queen_check_move, Rook_check_move, _check_move_found, _check_blocks,
      _filter_line, check_move_body, find, Queen_find.
    cbn [queen_side cls position fst snd]. rewrite !Hrook, !Hbishop.
    repeat split; by vm_compute.
Qed.

End MovesSpec.

(** * Properties of the socket gateway *)

Module SocketsSpec.
Import Sockets.

Lemma valid_type_keys (s : string) : valid_type (JStr s) ↔ is_Some (type_funcs !! s).
Proof.
  unfold valid_type, type_funcs.
  rewrite !lookup_insert_is_Some, lookup_singleton_is_Some.
  split.
  - intros [H|[H|H]]; simplify_eq; naive_solver.
  - intros [-> | [_ [-> | [_ ->]]]]; auto.
Qed.

Lemma valid_type_str (x : json) : valid_type x → ∃ s, x = JStr s.
Proof. intros [-> | [-> | ->]]; by eexists. Qed.

(** [received_message] hands the decoded value to [_process_message]
    and does nothing after it: what [_process_message] raises goes up. *)
Lemma received_message_decoded put loads (data : list Byte.byte) (j : json) (t : list event) :
  loads data = Return j →
  received_message put loads data t
  = _process_message put j
      (t ++ (if bool_decide (1000 < Z.of_nat (length data))
             then [Close 1856 "message too long"] else [])
         ++ [Print data]).
Proof.
  intros Hj. unfold received_message, try_except_reraise, lift, close, emit, mbind, io_bind, mret, io_ret.
  rewrite Hj. case_bool_decide; by rewrite <- ?app_assoc, ?app_nil_r.
Qed.

(** C4 (the code departs from it): on a frame of more than 1000 bytes
    the connection is closed with code 1856 and reason "message too
    long", and then the frame is printed, decoded and dispatched like
    any other: nothing stops the processing after the close. *)
Theorem oversized_frame_still_processed put loads (data : list Byte.byte) (j : json)
    (t : list event) :
  1000 < Z.of_nat (length data) →
  loads data = Return j →
  received_message put loads data t
  = _process_message put j (t ++ [Close 1856 "message too long"; Print data]).
Proof.
  intros Hlen Hj. rewrite (received_message_decoded put loads data j t Hj).
  by rewrite bool_decide_true.
Qed.

Lemma oversized_frame_still_processed_witness :
  1000 < Z.of_nat (length oversized_frame)
  ∧ received_message queue_up loads_move oversized_frame []
    = ([Close 1856 "message too long"; Print oversized_frame; Call move (JInt 1)], Return tt).
Proof.
  split; [by vm_compute|].
  rewrite (oversized_frame_still_processed queue_up loads_move oversized_frame move_message []);
    [by vm_compute | by vm_compute | by vm_compute].
Defined.

(** ** The handlers *)

(** A handler call is recorded, and what follows on the trace is what
    the handler does to the queue and to [pending]; [move] and
    [game_operation] do nothing and return. *)
Lemma call_outcome put (f : handler) (data : json) (t : list event) :
  ∃ rest r, call put f data t = (t ++ Call f data :: rest, r)
            ∧ Forall handler_event rest
            ∧ (f ≠ join_queue → rest = [] ∧ r = Return tt).
Proof.
  unfold call, subscript, set_pending, raise, lift, emit, mbind, io_bind, mret, io_ret.
  destruct f; [|by exists [], (Return tt)..].
  assert (Hnone : ∀ e : exn, ∃ rest r,
            (t ++ [Call join_queue data], Raise e : result unit)
            = (t ++ Call join_queue data :: rest, r)
            ∧ Forall handler_event rest ∧ (join_queue ≠ join_queue → rest = [] ∧ r = Return tt))
    by (intros e; by exists [], (Raise e)).
  destruct data as [| | | | | |d]; try apply Hnone.
  destruct (d !! "id") as [id|]; [|apply Hnone].
  destruct (put id) as [[]|e].
  - destruct id; rewrite <- ?app_assoc; cbn [app];
      (eexists _, _; split; [reflexivity|]; split; [|done]);
      repeat constructor.
  - rewrite <- app_assoc. cbn [app]. eexists _, _. split; [reflexivity|].
    split; [|done]. by repeat constructor.
Qed.

(** [join_queue] on data that holds no identifier: the call is made and
    raises, for data that is not an object and for an object without the
    key. *)
Example join_queue_without_id :
  _process_message queue_up (JDict {[ "type" := JStr "join_queue"; "data" := JInt 1 ]}) []
  = ([Call join_queue (JInt 1)], Raise (TypeError "object is not subscriptable"))
  ∧ _process_message queue_up
      (JDict {[ "type" := JStr "join_queue"; "data" := JDict ∅ ]}) []
    = ([Call join_queue (JDict ∅)], Raise (KeyError "id")).
Proof. split; by vm_compute. Qed.

(** ** The checks of [_parse_input] *)

(** [_process_message] on a dict, by the type and the data it holds. *)
Lemma process_message_dict put (d : gmap string json) (t : list event) :
  let _type := default JNone (d !! "type") in
  let data := default JNone (d !! "data") in
  _process_message put (JDict d) t
  = match _type with
    | JList _ | JDict _ => (t, Raise (TypeError "unhashable type"))
    | JStr s =>
        match type_funcs !! s with
        | None => (t, Raise unexpected_type)
        | Some f =>
            if is_None data then (t, Raise missing_data)
            else call put f data t
        end
    | _ => (t, Raise unexpected_type)
    end.
Proof.
  intros _type data.
  unfold _process_message, _parse_input, get, not_in_keys, getitem, raise, lift,
    mbind, io_bind, mret, io_ret.
  fold _type. fold data. destruct _type as [| | | |s| |]; try reflexivity.
  destruct (type_funcs !! s) as [f|] eqn:Hs.
  - rewrite bool_decide_true by (by eexists). cbn [negb]. destruct (is_None data); [done|].
    by rewrite Hs.
  - rewrite bool_decide_false; [done|]. by intros [].
Qed.

Lemma is_None_spec (x : json) : is_None x = true ↔ x = JNone.
Proof. by destruct x. Qed.

(** A message whose type is a list is not of a valid type, yet
    processing it does not raise the "unexpected type" error: the key
    lookup raises its TypeError first.  A type that is a number, which
    is not valid either, does get the "unexpected type" error. *)
Example list_type_raises_type_error :
  ¬ valid_type (JList [])
  ∧ _process_message queue_up list_typed_message []
    = ([], Raise (TypeError "unhashable type"))
  ∧ ¬ (¬ valid_type (JList [])
       → (_process_message queue_up list_typed_message []).2 = Raise unexpected_type)
  ∧ _process_message queue_up (JDict {[ "type" := JInt 5; "data" := JInt 1 ]}) []
    = ([], Raise unexpected_type).
Proof.
  assert (Hv : ¬ valid_type (JList [])) by (by intros [|[|]]).
  assert (Hr : _process_message queue_up list_typed_message []
               = ([], Raise (TypeError "unhashable type")))
    by (by vm_compute).
  split; [done|]. split; [done|]. split; [|by vm_compute].
  intros H. specialize (H Hv). by rewrite Hr in H.
Qed.

(** C6 (the code departs from it): for a decoded dict, a type that can
    be hashed and is not one of the three raises the "unexpected type"
    error, whatever the data; a type that is a list or a dict is not one
    of the three either, and the membership test raises its TypeError
    before the "unexpected type" error is reached; a valid type with no
    data, or with [null], raises the "missing data" error; the handler
    registered for the type is called, with the data, exactly when both
    checks pass, and what it raises goes up; [received_message] does
    nothing after [_process_message], so no error is caught. *)
Theorem process_message_checks put (d : gmap string json) (t : list event) :
  let _type := default JNone (d !! "type") in
  let data := default JNone (d !! "data") in
  (hashable _type → ¬ valid_type _type →
     _process_message put (JDict d) t = (t, Raise unexpected_type))
  ∧ (¬ hashable _type →
     ¬ valid_type _type
     ∧ _process_message put (JDict d) t = (t, Raise (TypeError "unhashable type")))
  ∧ (valid_type _type → data = JNone →
     _process_message put (JDict d) t = (t, Raise missing_data))
  ∧ (valid_type _type → data ≠ JNone →
     ∃ s f, _type = JStr s ∧ type_funcs !! s = Some f
            ∧ _process_message put (JDict d) t = call put f data t
            ∧ ∃ rest, (_process_message put (JDict d) t).1 = t ++ Call f data :: rest
                      ∧ Forall handler_event rest)
  ∧ (∀ f x, Call f x ∈ (_process_message put (JDict d) t).1 →
     Call f x ∈ t ∨ (valid_type _type ∧ data ≠ JNone ∧ x = data))
  ∧ (∀ loads bytes t0, loads bytes = Return (JDict d) →
     received_message put loads bytes t0
     = _process_message put (JDict d)
         (t0 ++ (if bool_decide (1000 < Z.of_nat (length bytes))
                 then [Close 1856 "message too long"] else [])
             ++ [Print bytes])).
Proof.
  intros _type data. pose proof (process_message_dict put d t) as Heq. cbv zeta in Heq.
  fold _type in Heq. fold data in Heq. rewrite Heq. clear Heq.
  split; [|split; [|split; [|split; [|split]]]].
  - intros Hh Hv. destruct _type as [| | | |s| |]; try done.
    destruct (type_funcs !! s) as [f|] eqn:Hs; [|done].
    exfalso. apply Hv, valid_type_keys. by eexists.
  - intros Hh. split.
    + intros Hv. apply valid_type_str in Hv as [s Hs]. rewrite Hs in Hh. by apply Hh.
    + destruct _type; try done; exfalso; by apply Hh.
  - intros Hv ->. destruct (valid_type_str _ Hv) as [s ->].
    apply valid_type_keys in Hv as [f ->]. done.
  - intros Hv Hd. destruct (valid_type_str _ Hv) as [s Hs]. rewrite Hs in Hv |- *.
    apply valid_type_keys in Hv as [f Hf]. exists s, f. rewrite Hf.
    destruct (is_None data) eqn:Hn; [by apply is_None_spec in Hn|].
    split; [done|]. split; [done|].
    destruct (call_outcome put f data t) as (rest & r & -> & Hrest & _). split; [done|]. by exists rest.
  - intros f x. destruct _type as [| | | |s| |] eqn:Ht; try (by left).
    destruct (type_funcs !! s) as [g|] eqn:Hs; [|by left].
    destruct (is_None data) eqn:Hn; [by left|].
    destruct (call_outcome put g data t) as (rest & r & -> & Hrest & _). cbn [fst].
    rewrite elem_of_app, elem_of_cons. intros [Hin|[Hc|Hin]]; [by left|right|].
    + injection Hc as -> ->. split; [|split; [|done]].
      * apply valid_type_keys. by eexists.
      * intros Hd. rewrite Hd in Hn. done.
    + rewrite list.Forall_forall in Hrest. by destruct (Hrest _ Hin).
  - intros loads bytes t0 Hl. by apply received_message_decoded.
Qed.

Lemma process_message_checks_witness :
  _process_message queue_up list_typed_message [] = ([], Raise (TypeError "unhashable type"))
  ∧ _process_message queue_up (JDict {[ "type" := JInt 5; "data" := JInt 1 ]}) []
    = ([], Raise unexpected_type)
  ∧ _process_message queue_up move_message [] = call queue_up move (JInt 1) [].
Proof.
  split; [|split].
  - destruct (process_message_checks queue_up {[ "type" := JList []; "data" := JInt 1 ]} [])
      as (_ & Hlist & _).
    apply Hlist. intros Hh. exact Hh.
  - destruct (process_message_checks queue_up {[ "type" := JInt 5; "data" := JInt 1 ]} [])
      as (Hint & _).
    apply Hint; [exact I|]. by intros [|[|]].
  - destruct (process_message_checks queue_up {[ "type" := JStr "move"; "data" := JInt 1 ]} [])
      as (_ & _ & _ & Hcall & _).
    destruct Hcall as (s & f & Hs & Hf & Hrun & _).
    + right. by left.
    + discriminate.
    + assert (s = "move") as -> by (by vm_compute in Hs; injection Hs).
      assert (f = move) as -> by (by vm_compute in Hf; injection Hf).
      exact Hrun.
Defined.

End SocketsSpec.

(** * Further properties of the rules engine *)

(** ** What [find] returns, class by class *)

Module Destinations.
Import Moves MovesSpec.

Lemma elem_of_product (l1 l2 : list Z) (p : pos) :
  p ∈ product l1 l2 ↔ p.1 ∈ l1 ∧ p.2 ∈ l2.
Proof.
  unfold product. rewrite list_elem_of_bind. destruct p as [a b]. simpl. split.
  - intros (a' & Hin & Ha). apply list_elem_of_bind in Hin as (b' & Hin & Hb).
    apply list_elem_of_singleton in Hin. by simplify_eq.
  - intros [Ha Hb]. exists a. split; [|done]. apply list_elem_of_bind. exists b.
    split; [|done]. by apply list_elem_of_singleton.
Qed.

Lemma elem_of_rook_find (self : ref) (x y : Z) (p : pos) :
  p ∈ Rook_find self x y ↔ (0 ≤ p.1 < 8 ∧ 0 ≤ p.2 < 8) ∧ (p.1 = x ∨ p.2 = y).
Proof.
  unfold Rook_find. rewrite elem_of_clean_moves. unfold Rook_find_body, range.
  rewrite elem_of_union, !elem_of_list_to_set, !list_elem_of_fmap.
  destruct p as [a b]. simpl. split.
  - intros [[(i & Hi & _) | (i & Hi & _)] Hr]; simplify_eq; tauto.
  - intros [Hr [-> | ->]]; (split; [|done]); [left; exists b|right; exists a];
      (split; [done|]); apply elem_of_seqZ; lia.
Qed.

Lemma elem_of_bishop_find (self : ref) (x y : Z) (p : pos) :
  p ∈ Bishop_find self x y
  ↔ (0 ≤ p.1 < 8 ∧ 0 ≤ p.2 < 8)
    ∧ Z.abs (p.1 - x) = Z.abs (p.2 - y) ∧ 1 ≤ Z.abs (p.1 - x) ≤ 7.
Proof.
  unfold Bishop_find. rewrite elem_of_clean_moves.
  unfold Bishop_find_body, range, Bishop_possible.
  rewrite elem_of_list_to_set, list_elem_of_bind.
  destruct p as [a b]. simpl. split.
  - intros [(i & Hin & Hi) Hr]. apply elem_of_seqZ in Hi.
    rewrite !elem_of_cons, elem_of_nil in Hin.
    split; [done|]. destruct Hin as [H | [H | [H | [H | []]]]]; simplify_eq; lia.
  - intros (Hr & Habs & Hk). split; [|done]. exists (Z.abs (a - x)).
    split; [|apply elem_of_seqZ; lia].
    rewrite !elem_of_cons, !pair_equal_spec. lia.
Qed.

(** X1: a Rook's destinations are the squares of the board on its file
    or on its rank, its own square among them when it is on the board. *)
Theorem rook_find_spec (self : ref) (x y : Z) (p : pos) :
  (p ∈ Rook_find self x y ↔ (0 ≤ p.1 < 8 ∧ 0 ≤ p.2 < 8) ∧ (p.1 = x ∨ p.2 = y))
  ∧ ((x, y) ∈ Rook_find self x y ↔ 0 ≤ x < 8 ∧ 0 ≤ y < 8).
Proof.
  split; [apply elem_of_rook_find|]. rewrite elem_of_rook_find. simpl. tauto.
Qed.

(** X2: a Bishop's destinations are the squares of the board 1 to 7
    diagonal steps away; its own square is never one of them. *)
Theorem bishop_find_spec (self : ref) (x y : Z) (p : pos) :
  (p ∈ Bishop_find self x y
   ↔ (0 ≤ p.1 < 8 ∧ 0 ≤ p.2 < 8)
     ∧ Z.abs (p.1 - x) = Z.abs (p.2 - y) ∧ 1 ≤ Z.abs (p.1 - x) ≤ 7)
  ∧ (x, y) ∉ Bishop_find self x y.
Proof.
  split; [apply elem_of_bishop_find|]. rewrite elem_of_bishop_find. simpl. lia.
Qed.

Lemma elem_of_knight_find (self : ref) (x y : Z) (p : pos) :
  p ∈ Knight_find self x y
  ↔ (0 ≤ p.1 < 8 ∧ 0 ≤ p.2 < 8)
    ∧ ((Z.abs (p.1 - x) = 1 ∧ Z.abs (p.2 - y) = 2)
       ∨ (Z.abs (p.1 - x) = 2 ∧ Z.abs (p.2 - y) = 1)).
Proof.
  unfold Knight_find. rewrite elem_of_clean_moves. unfold Knight_find_body.
  rewrite elem_of_list_to_set, elem_of_app, !elem_of_product.
  rewrite !elem_of_cons, !elem_of_nil. lia.
Qed.

Lemma elem_of_king_find (self : ref) (x y : Z) (p : pos) :
  p ∈ King_find self x y
  ↔ (0 ≤ p.1 < 8 ∧ 0 ≤ p.2 < 8) ∧ Z.abs (p.1 - x) ≤ 1 ∧ Z.abs (p.2 - y) ≤ 1.
Proof.
  unfold King_find. rewrite elem_of_clean_moves. unfold King_find_body.
  rewrite elem_of_list_to_set, !elem_of_product.
  rewrite !elem_of_cons, !elem_of_nil. lia.
Qed.

(** X3: a Knight's destinations are the squares of the board one file
    and two ranks away, or two files and one rank away; its own square
    is never one of them. *)
Theorem knight_find_spec (self : ref) (x y : Z) (p : pos) :
  (p ∈ Knight_find self x y
   ↔ (0 ≤ p.1 < 8 ∧ 0 ≤ p.2 < 8)
     ∧ ((Z.abs (p.1 - x) = 1 ∧ Z.abs (p.2 - y) = 2)
        ∨ (Z.abs (p.1 - x) = 2 ∧ Z.abs (p.2 - y) = 1)))
  ∧ (x, y) ∉ Knight_find self x y.
Proof.
  split; [apply elem_of_knight_find|]. rewrite elem_of_knight_find. simpl. lia.
Qed.

(** X4: a King's destinations are the squares of the board at most one
    file and one rank away, its own square among them when it is on the
    board. *)
Theorem king_find_spec (self : ref) (x y : Z) (p : pos) :
  (p ∈ King_find self x y
   ↔ (0 ≤ p.1 < 8 ∧ 0 ≤ p.2 < 8) ∧ Z.abs (p.1 - x) ≤ 1 ∧ Z.abs (p.2 - y) ≤ 1)
  ∧ ((x, y) ∈ King_find self x y ↔ 0 ≤ x < 8 ∧ 0 ≤ y < 8).
Proof.
  split; [apply elem_of_king_find|]. rewrite elem_of_king_find. simpl. lia.
Qed.

(** X5: a Queen's destinations are the squares of the board on its
    file, on its rank, or 1 to 7 diagonal steps away, whatever the
    positions its inner Rook and Bishop store. *)
Theorem queen_find_spec (h : heap) (self _rook _bishop : ref) (x y : Z) (p : pos) :
  cls (h self) = CQueen _rook _bishop →
  p ∈ find h self x y
  ↔ (0 ≤ p.1 < 8 ∧ 0 ≤ p.2 < 8)
    ∧ (p.1 = x ∨ p.2 = y
       ∨ (Z.abs (p.1 - x) = Z.abs (p.2 - y) ∧ 1 ≤ Z.abs (p.1 - x) ≤ 7)).
Proof.
  intros Hcls. unfold find. rewrite Hcls. unfold Queen_find.
  rewrite elem_of_union, elem_of_bishop_find, elem_of_rook_find. tauto.
Qed.

Lemma queen_find_spec_witness :
  (7, 7) ∈ find queen_side 0%nat 0 0
  ↔ (0 ≤ 7 < 8 ∧ 0 ≤ 7 < 8)
    ∧ (7 = 0 ∨ 7 = 0 ∨ (Z.abs (7 - 0) = Z.abs (7 - 0) ∧ 1 ≤ Z.abs (7 - 0) ≤ 7)).
Proof. exact (queen_find_spec queen_side 0%nat 1%nat 2%nat 0 0 (7, 7) eq_refl). Defined.

(** X6: a Pawn built by [Pawn.__init__] never leaves its file and only
    goes forward, by one or two ranks: down for the "down" color, up
    for any other. *)
Theorem pawn_find_forward (player_down c : str) (start : pos) (h : heap) (self : ref)
    (x y : Z) (p : pos) :
  h self = Pawn_init player_down c start →
  p ∈ find h self x y →
  p.1 = x ∧ (if str_eq c player_down then y - 2 ≤ p.2 < y else y < p.2 ≤ y + 2).
Proof.
  intros Hself. unfold find. rewrite Hself. unfold Pawn_init. destruct p as [a b].
  destruct (str_eq c player_down); cbn [cls]; unfold Pawn_find; rewrite elem_of_clean_moves;
    unfold Pawn_find_body; case_bool_decide;
    rewrite ?elem_of_union, !elem_of_singleton, !pair_equal_spec; simpl; lia.
Qed.

Lemma pawn_find_forward_witness :
  (4, 4).1 = 4
  ∧ (if str_eq black black then 6 - 2 ≤ (4, 4).2 < 6 else 6 < (4, 4).2 ≤ 6 + 2).
Proof.
  apply (pawn_find_forward black black (4, 6) pawn_at_start 0%nat 4 6 (4, 4)).
  - reflexivity.
  - change (find pawn_at_start 0%nat 4 6) with (Pawn_find 6 (-1) 0%nat 4 6).
    unfold Pawn_find. rewrite clean_moves_filter.
    apply (bool_decide_unpack _). by vm_compute.
Defined.

End Destinations.

(** ** The geometry helpers and the line filter on the board *)

Module Paths.
Import Moves MovesSpec.

Lemma check_range_squares (p : pos) : _check_range p = true → p ∈ squares.
Proof. intros Hp. apply check_range_spec in Hp as [??]. by apply in_range_squares. Qed.

Lemma elem_of_offsets (x : Z) : -7 ≤ x ≤ 7 → x ∈ offsets.
Proof. intros Hx. apply elem_of_seqZ. lia. Qed.

(** A property checked on every pair of difference vectors holds of any
    two vectors with components between -7 and 7. *)
Lemma on_vectors (P : pos → pos → Prop) :
  Forall (λ v : pos * pos, P v.1 v.2) vectors →
  ∀ d q, -7 ≤ d.1 ≤ 7 → -7 ≤ d.2 ≤ 7 → -7 ≤ q.1 ≤ 7 → -7 ≤ q.2 ≤ 7 → P d q.
Proof.
  intros HP [dx dy] [qx qy] Hdx Hdy Hqx Hqy. rewrite list.Forall_forall in HP.
  apply (HP ((dx, dy), (qx, qy))). unfold vectors.
  apply list_elem_of_bind. exists dx. split; [|by apply elem_of_offsets].
  apply list_elem_of_bind. exists dy. split; [|by apply elem_of_offsets].
  apply list_elem_of_bind. exists qx. split; [|by apply elem_of_offsets].
  apply list_elem_of_bind. exists qy. split; [|by apply elem_of_offsets].
  by apply list_elem_of_singleton.
Qed.

(** Case analysis on an integer between two bounds that are numerals. *)
Ltac cases_of x :=
  repeat match goal with
         | H : ?a ≤ x ≤ ?b |- _ =>
             first [ assert (x = a) as -> by lia; clear H
                   | destruct (decide (x = a)) as [-> | ?];
                     [clear H | assert (a + 1 ≤ x ≤ b) by lia; clear H] ]
         end.

(** The normalisation of a difference to its sign, by float division. *)
Lemma safe_divide_sign (x : Z) :
  -7 ≤ x ≤ 7 →
  _safe_divide (float_of_Z x) (PrimFloat.abs (float_of_Z x)) (PyNum 0)
  = PyNum (float_of_Z (Z.sgn x)).
Proof. intros Hx. cases_of x; by vm_compute. Qed.

Lemma diff_points_board (start end_ : pos) :
  _check_range start = true → _check_range end_ = true →
  _diff_points start end_ = signs start end_.
Proof.
  intros Hs He. apply check_range_spec in Hs, He. unfold _diff_points, signs.
  cbv zeta. by rewrite !safe_divide_sign by lia.
Qed.

(** Python's [==] on two signs. *)
Lemma sign_eq (a b : Z) :
  -1 ≤ a ≤ 1 → -1 ≤ b ≤ 1 →
  py_eq (PyNum (float_of_Z a)) (PyNum (float_of_Z b)) = (a =? b).
Proof. intros Ha Hb. cases_of a; cases_of b; by vm_compute. Qed.

(** The line predicate depends on the differences to [end_] only. *)
Lemma line_shift (end_ start : pos) (x y : Z) :
  _line end_ start x y
  = _line (0, 0) (start.1 - end_.1, start.2 - end_.2) (x - end_.1) (y - end_.2).
Proof.
  unfold _line, _slope, _safe_divide. cbn [fst snd]. rewrite !Z.sub_0_r.
  destruct (PrimFloat.eqb _ _); [|by rewrite !Z.sub_0_r].
  rewrite !bool_decide_true by done. apply eq_true_iff_eq. rewrite !Z.eqb_eq. lia.
Qed.

Lemma collinear_shift (start end_ move : pos) :
  collinear start end_ move
  = collinear (start.1 - end_.1, start.2 - end_.2) (0, 0) (move.1 - end_.1, move.2 - end_.2).
Proof.
  unfold collinear. cbn [fst snd]. rewrite !Z.sub_0_r.
  destruct (Z.eqb_spec start.1 end_.1) as [Heq|Hne].
  - rewrite (proj2 (Z.eqb_eq (start.1 - end_.1) 0)) by lia.
    apply eq_true_iff_eq. rewrite !Z.eqb_eq. lia.
  - by rewrite (proj2 (Z.eqb_neq (start.1 - end_.1) 0)) by lia.
Qed.

(** The line predicate against the cross products, checked by evaluation
    on all pairs of difference vectors. *)
Lemma line_vectors :
  Forall (λ v : pos * pos, _line (0, 0) v.1 v.2.1 v.2.2 = collinear v.1 (0, 0) v.2) vectors.
Proof. apply (bool_decide_unpack _). vm_cast_no_check I. Qed.

Lemma line_board (start end_ move : pos) :
  _check_range start = true → _check_range end_ = true → _check_range move = true →
  _line end_ start move.1 move.2 = collinear start end_ move.
Proof.
  intros Hs He Hm. apply check_range_spec in Hs, He, Hm.
  rewrite line_shift, collinear_shift.
  apply (on_vectors (λ d q, _line (0, 0) d q.1 q.2 = collinear d (0, 0) q) line_vectors
           (start.1 - end_.1, start.2 - end_.2) (move.1 - end_.1, move.2 - end_.2));
    cbn [fst snd]; lia.
Qed.

(** The condition of the line filter, in integer arithmetic. *)
Lemma on_line_board (start end_ move : pos) :
  _check_range start = true → _check_range end_ = true → _check_range move = true →
  on_line start end_ move = on_line_exact start end_ move.
Proof.
  intros Hs He Hm. unfold on_line, on_line_exact. cbv zeta.
  rewrite (line_board start end_ move Hs He Hm).
  rewrite (diff_points_board start end_ Hs He), (diff_points_board start move Hs Hm).
  unfold signs, diff_eq, _end_point_check. cbn [fst snd].
  change (PyNum (-1)) with (PyNum (float_of_Z (-1))).
  rewrite !sign_eq by lia. rewrite andb_assoc.
  rewrite (Z.eqb_sym (-1) (Z.sgn (start.1 - end_.1))), (Z.eqb_sym (-1) (Z.sgn (start.2 - end_.2))).
  by destruct (_ || _).
Qed.

Lemma elem_of_triples (s e p : pos) :
  s ∈ squares → e ∈ squares → p ∈ squares → (s, e, p) ∈ triples.
Proof.
  intros Hs He Hp. unfold triples. apply list_elem_of_bind. exists s. split; [|done].
  apply list_elem_of_bind. exists e. split; [|done].
  apply list_elem_of_bind. exists p. split; [|done]. by apply list_elem_of_singleton.
Qed.

Lemma on_triples (P : pos → pos → pos → bool) :
  forallb (λ t : pos * pos * pos, P t.1.1 t.1.2 t.2) triples = true →
  ∀ s e p, _check_range s = true → _check_range e = true → _check_range p = true →
    P s e p = true.
Proof.
  intros HP s e p Hs He Hp. rewrite forallb_forall in HP.
  apply (HP (s, e, p)), list_elem_of_In, elem_of_triples; by apply check_range_squares.
Qed.

(** The two facts below are checked by evaluation on all triples of
    squares, in integer arithmetic. *)
Lemma rook_triples :
  forallb (λ t : pos * pos * pos,
    Bool.eqb (on_line_exact t.1.1 t.1.2 t.2 && in_rook_find t.1.1 t.2)
             (in_rook_path t.1.1 t.1.2 t.2)) triples = true.
Proof. vm_cast_no_check (eq_refl true). Qed.

Lemma bishop_triples :
  forallb (λ t : pos * pos * pos,
    Bool.eqb (on_line_exact t.1.1 t.1.2 t.2 && in_bishop_find t.1.1 t.2)
             (in_bishop_path t.1.1 t.1.2 t.2)) triples = true.
Proof. vm_cast_no_check (eq_refl true). Qed.

Lemma elem_of_steps (start : pos) (dx dy n : Z) (p : pos) :
  p ∈ steps start dx dy n ↔ ∃ k, 1 ≤ k ≤ n ∧ p = (start.1 + k * dx, start.2 + k * dy).
Proof.
  unfold steps. rewrite elem_of_list_to_set, list_elem_of_fmap. split.
  - intros (k & -> & Hk). apply elem_of_seqZ in Hk. exists k. split; [lia|done].
  - intros (k & Hk & ->). exists k. split; [done|]. apply elem_of_seqZ. lia.
Qed.

Ltac bool_to_Prop :=
  rewrite ?andb_true_iff, ?orb_true_iff, ?negb_true_iff, ?Z.eqb_eq, ?Z.eqb_neq,
    ?Z.leb_le, ?Z.ltb_lt.

Lemma elem_of_rook_path (start end_ p : pos) :
  _check_range start = true → _check_range end_ = true →
  p ∈ rook_path start end_ ↔ _check_range p = true ∧ in_rook_path start end_ p = true.
Proof.
  intros Hs He. rewrite !check_range_spec in *.
  destruct start as [sx sy], end_ as [ex ey], p as [px py]. cbn [fst snd] in *.
  unfold rook_path, in_rook_path. cbn [fst snd].
  destruct (Z.eqb_spec (ex - sx) 0) as [Hx|Hx], (Z.eqb_spec (ey - sy) 0) as [Hy|Hy];
    cbn [andb orb].
  - rewrite bool_decide_true by done. rewrite elem_of_singleton, pair_equal_spec.
    bool_to_Prop. lia.
  - rewrite bool_decide_false by lia. rewrite bool_decide_true by lia.
    rewrite elem_of_steps. cbn [fst snd]. bool_to_Prop. rewrite Hx. split.
    + intros (k & Hk & Hp). apply pair_equal_spec in Hp as [-> ->]. nia.
    + intros (Hr & (((Hsx & Hsy) & Hax) & Hay)). exists (Z.abs (py - sy)).
      rewrite pair_equal_spec. nia.
  - rewrite bool_decide_false by lia. rewrite bool_decide_true by lia.
    rewrite elem_of_steps. cbn [fst snd]. bool_to_Prop. rewrite Hy. split.
    + intros (k & Hk & Hp). apply pair_equal_spec in Hp as [-> ->]. nia.
    + intros (Hr & (((Hsx & Hsy) & Hax) & Hay)). exists (Z.abs (px - sx)).
      rewrite pair_equal_spec. nia.
  - rewrite !bool_decide_false by lia. split; [intros []%not_elem_of_empty|by intros [_ ?]].
Qed.

Lemma elem_of_bishop_path (start end_ p : pos) :
  _check_range start = true → _check_range end_ = true →
  p ∈ bishop_path start end_ ↔ _check_range p = true ∧ in_bishop_path start end_ p = true.
Proof.
  intros Hs He. rewrite !check_range_spec in *.
  destruct start as [sx sy], end_ as [ex ey], p as [px py]. cbn [fst snd] in *.
  unfold bishop_path, in_bishop_path. cbn [fst snd].
  destruct (decide (Z.abs (ex - sx) = Z.abs (ey - sy) ∧ ex - sx ≠ 0)) as [Hdiag|Hdiag].
  - rewrite bool_decide_true by done.
    destruct (decide (ex - sx < 0 ∧ 0 < ey - sy)) as [Hup|Hup].
    + rewrite bool_decide_true by done.
      rewrite (proj2 (Z.ltb_lt (ex - sx) 0)), (proj2 (Z.ltb_lt 0 (ey - sy))) by lia.
      cbn [andb]. rewrite elem_of_union, elem_of_singleton, elem_of_filter, elem_of_steps.
      rewrite Is_true_true, check_range_spec. cbn [fst snd]. bool_to_Prop.
      rewrite pair_equal_spec. split.
      * intros [[-> ->] | [Hr (k & Hk & Hp)]]; [lia|].
        apply pair_equal_spec in Hp as [-> ->]. lia.
      * intros (Hr & _ & Hsum & Hle). destruct (decide (px = ex)) as [->|Hne]; [left; lia|].
        right. split; [done|]. exists (ex - px). rewrite pair_equal_spec. lia.
    + rewrite bool_decide_false by done.
      assert (Htest : (ex - sx <? 0) && (0 <? ey - sy) = false).
      { apply andb_false_iff. rewrite !Z.ltb_ge. lia. }
      rewrite Htest. rewrite elem_of_steps. cbn [fst snd]. bool_to_Prop. split.
      * intros (k & Hk & Hp). apply pair_equal_spec in Hp as [-> ->]. nia.
      * intros (Hr & _ & (((Hsx & Hsy) & Habs) & Hle)). exists (Z.abs (px - sx)).
        rewrite pair_equal_spec. nia.
  - rewrite bool_decide_false by done.
    assert (Htest : (Z.abs (ex - sx) =? Z.abs (ey - sy)) && negb (ex - sx =? 0) = false).
    { apply andb_false_iff. rewrite negb_false_iff, Z.eqb_neq, Z.eqb_eq. lia. }
    rewrite Htest. cbn [andb].
    split; [intros []%not_elem_of_empty|by intros [_ ?]].
Qed.

Lemma rook_line (self : ref) (start end_ : pos) :
  _check_range start = true → _check_range end_ = true →
  filter (λ move, on_line start end_ move = true) (Rook_find self start.1 start.2)
  = rook_path start end_.
Proof.
  intros Hs He. apply set_eq. intros p.
  rewrite elem_of_filter, Destinations.elem_of_rook_find, (elem_of_rook_path start end_ p Hs He).
  rewrite <- check_range_spec.
  pose proof (on_triples (λ s e p, Bool.eqb (on_line_exact s e p && in_rook_find s p)
                                     (in_rook_path s e p)) rook_triples start end_ p Hs He)
    as Htest.
  split.
  - intros (Hon & Hr & Hfind). split; [done|]. specialize (Htest Hr).
    apply eqb_prop in Htest as <-. rewrite <- (on_line_board start end_ p Hs He Hr), Hon.
    unfold in_rook_find. apply orb_true_iff. rewrite !Z.eqb_eq. done.
  - intros (Hr & Hpath). specialize (Htest Hr). apply eqb_prop in Htest. rewrite Hpath in Htest.
    apply andb_true_iff in Htest as [Hon Hfind]. split; [|split; [done|]].
    + by rewrite (on_line_board start end_ p Hs He Hr).
    + unfold in_rook_find in Hfind. apply orb_true_iff in Hfind. by rewrite !Z.eqb_eq in Hfind.
Qed.

Lemma bishop_line (self : ref) (start end_ : pos) :
  _check_range start = true → _check_range end_ = true →
  filter (λ move, on_line start end_ move = true) (Bishop_find self start.1 start.2)
  = bishop_path start end_.
Proof.
  intros Hs He. apply set_eq. intros p.
  rewrite elem_of_filter, Destinations.elem_of_bishop_find,
    (elem_of_bishop_path start end_ p Hs He).
  rewrite <- check_range_spec.
  pose proof (on_triples (λ s e p, Bool.eqb (on_line_exact s e p && in_bishop_find s p)
                                     (in_bishop_path s e p)) bishop_triples start end_ p Hs He)
    as Htest.
  assert (Hfind : _check_range p = true →
                  in_bishop_find start p = true
                  ↔ Z.abs (p.1 - start.1) = Z.abs (p.2 - start.2)
                    ∧ 1 ≤ Z.abs (p.1 - start.1) ≤ 7).
  { intros Hr. apply check_range_spec in Hr, Hs. unfold in_bishop_find. bool_to_Prop. lia. }
  split.
  - intros (Hon & Hr & Hin). split; [done|]. specialize (Htest Hr).
    apply eqb_prop in Htest as <-. rewrite <- (on_line_board start end_ p Hs He Hr), Hon.
    by apply Hfind.
  - intros (Hr & Hpath). specialize (Htest Hr). apply eqb_prop in Htest. rewrite Hpath in Htest.
    apply andb_true_iff in Htest as [Hon Hin]. split; [|split; [done|]].
    + by rewrite (on_line_board start end_ p Hs He Hr).
    + by apply Hfind.
Qed.

Lemma end_on_path (start end_ : pos) :
  _check_range start = true → _check_range end_ = true →
  (end_ ∈ rook_path start end_ ↔ end_.1 = start.1 ∨ end_.2 = start.2)
  ∧ (end_ ∈ bishop_path start end_
     ↔ Z.abs (end_.1 - start.1) = Z.abs (end_.2 - start.2) ∧ end_.1 ≠ start.1).
Proof.
  intros Hs He.
  rewrite (elem_of_rook_path start end_ end_ Hs He), (elem_of_bishop_path start end_ end_ Hs He).
  assert (Hin : ∀ B : Prop, _check_range end_ = true ∧ B ↔ B) by (intros B; tauto).
  rewrite !Hin. clear Hin Hs He. unfold in_rook_path, in_bishop_path. cbv zeta.
  destruct start as [sx sy], end_ as [ex ey]. cbn [fst snd]. split.
  - destruct (Z.eqb_spec (ex - sx) 0), (Z.eqb_spec (ey - sy) 0); cbn [andb orb];
      bool_to_Prop; lia.
  - destruct (Z.ltb_spec (ex - sx) 0), (Z.ltb_spec 0 (ey - sy)); cbn [andb];
      bool_to_Prop; lia.
Qed.

Lemma queen_path_non_empty (start end_ : pos) :
  _check_range start = true → _check_range end_ = true →
  bishop_path start end_ ∪ rook_path start end_ ≠ ∅
  ↔ end_.1 = start.1 ∨ end_.2 = start.2
    ∨ Z.abs (end_.1 - start.1) = Z.abs (end_.2 - start.2).
Proof.
  intros Hs He. destruct (end_on_path start end_ Hs He) as [Hrook Hbishop]. split.
  - intros Hne. apply set_choose_L in Hne as [p Hp]. apply elem_of_union in Hp as [Hp|Hp].
    + apply (elem_of_bishop_path start end_ p Hs He) in Hp as [_ Hp].
      unfold in_bishop_path in Hp. cbv zeta in Hp.
      apply andb_true_iff in Hp as [Hp _]. apply andb_true_iff in Hp as [Hp _].
      apply Z.eqb_eq in Hp. tauto.
    + apply (elem_of_rook_path start end_ p Hs He) in Hp as [_ Hp].
      unfold in_rook_path in Hp. cbv zeta in Hp.
      destruct (Z.eqb_spec (end_.1 - start.1) 0), (Z.eqb_spec (end_.2 - start.2) 0);
        cbn [andb orb] in Hp; try done; lia.
  - intros Hline. apply (non_empty_inhabited_L end_). apply elem_of_union.
    destruct (decide (end_.1 = start.1 ∨ end_.2 = start.2)) as [Hr|Hr]; [right; tauto|].
    left. apply Hbishop. lia.
Qed.


(** X7: between two squares of the board, [_diff_points] returns the
    signs of the two differences [start - end], as its docstring says:
    the float divisions lose nothing. *)
Theorem diff_points_signs (start end_ : pos) :
  _check_range start = true → _check_range end_ = true →
  _diff_points start end_ = signs start end_
  ∧ diff_eq (_diff_points start end_) (signs start end_) = true.
Proof.
  intros Hs He. rewrite (diff_points_board start end_ Hs He). split; [done|].
  apply check_range_spec in Hs, He. unfold diff_eq, signs. cbn [fst snd].
  rewrite !sign_eq by lia. by rewrite !Z.eqb_refl.
Qed.

Lemma diff_points_signs_witness :
  _diff_points (3, 3) (5, 1) = signs (3, 3) (5, 1)
  ∧ diff_eq (_diff_points (3, 3) (5, 1)) (signs (3, 3) (5, 1)) = true.
Proof. apply (diff_points_signs (3, 3) (5, 1)); reflexivity. Defined.

(** X8: for squares of the board, the line predicate built from the
    float slope holds exactly of the squares on the line through start
    and end: the same file when the line is vertical, equal cross
    products otherwise.  The whole condition of the line filter is then
    its version in integer arithmetic. *)
Theorem line_exact (start end_ move : pos) :
  _check_range start = true → _check_range end_ = true → _check_range move = true →
  _line end_ start move.1 move.2 = collinear start end_ move
  ∧ on_line start end_ move = on_line_exact start end_ move.
Proof.
  intros Hs He Hm. split; [by apply line_board|by apply on_line_board].
Qed.

Lemma line_exact_witness :
  _line (6, 3) (0, 0) (4, 2).1 (4, 2).2 = collinear (0, 0) (6, 3) (4, 2)
  ∧ on_line (0, 0) (6, 3) (4, 2) = on_line_exact (0, 0) (6, 3) (4, 2).
Proof. apply (line_exact (0, 0) (6, 3) (4, 2)); reflexivity. Defined.

(** The line filter on the body of [check_move]. *)
Lemma filter_line_body (h : heap) (self : ref) (end_ : pos) (b : board) :
  _filter_line check_move_body h self end_ b
  = Return (PySet (filter (λ move, on_line (position (h self)) end_ move = true)
                     (find h self (position (h self)).1 (position (h self)).2))).
Proof. reflexivity. Qed.

(** X9: for a Rook on the board and a destination on the board, the line
    filter keeps the squares after the Rook up to and including the
    destination along the file or the rank, the Rook's own square alone
    when the destination is that square, and nothing when the
    destination is on neither; the destination is kept exactly when it
    shares the file or the rank. *)
Theorem rook_line_filter (h : heap) (self : ref) (end_ : pos) (b : board) :
  cls (h self) = CRook →
  _check_range (position (h self)) = true → _check_range end_ = true →
  _filter_line check_move_body h self end_ b
  = Return (PySet (rook_path (position (h self)) end_))
  ∧ (end_ ∈ rook_path (position (h self)) end_
     ↔ end_.1 = (position (h self)).1 ∨ end_.2 = (position (h self)).2).
Proof.
  intros Hcls Hs He. split.
  - rewrite filter_line_body. unfold find. rewrite Hcls. by rewrite rook_line.
  - exact (proj1 (end_on_path (position (h self)) end_ Hs He)).
Qed.

Lemma rook_line_filter_witness :
  _filter_line check_move_body rook_and_blocker 0%nat (0, 5) blocked_file
  = Return (PySet (rook_path (0, 0) (0, 5)))
  ∧ ((0, 5) ∈ rook_path (0, 0) (0, 5) ↔ (0, 5).1 = (0, 0).1 ∨ (0, 5).2 = (0, 0).2).
Proof. apply (rook_line_filter rook_and_blocker 0%nat (0, 5) blocked_file); reflexivity. Defined.

(** X10: for a Bishop on the board and a destination on the board, the
    line filter keeps nothing unless the destination is on a diagonal of
    the Bishop.  Toward a higher file, or toward a lower file and a
    lower rank, it keeps the squares after the Bishop up to and
    including the destination.  Toward a lower file and a higher rank it
    keeps the destination and the squares beyond it, and none of the
    squares between the Bishop and the destination. *)
Theorem bishop_line_filter (h : heap) (self : ref) (end_ : pos) (b : board) :
  cls (h self) = CBishop →
  _check_range (position (h self)) = true → _check_range end_ = true →
  let start := position (h self) in
  _filter_line check_move_body h self end_ b = Return (PySet (bishop_path start end_))
  ∧ (end_ ∈ bishop_path start end_
     ↔ Z.abs (end_.1 - start.1) = Z.abs (end_.2 - start.2) ∧ end_.1 ≠ start.1)
  ∧ (end_.1 < start.1 → start.2 < end_.2 →
     ∀ k, 0 < k < start.1 - end_.1 → (start.1 - k, start.2 + k) ∉ bishop_path start end_).
Proof.
  intros Hcls Hs He start. split; [|split].
  - rewrite filter_line_body. unfold find. rewrite Hcls. by rewrite bishop_line.
  - exact (proj2 (end_on_path start end_ Hs He)).
  - intros Hx Hy k Hk. unfold bishop_path. cbv zeta.
    case_bool_decide as Hdiag; [|apply not_elem_of_empty].
    rewrite bool_decide_true by lia.
    rewrite elem_of_union, elem_of_singleton, elem_of_filter, elem_of_steps.
    destruct end_ as [ex ey]. simpl in *.
    intros [Heq | [_ (j & Hj & Heq)]]; simplify_eq; lia.
Qed.

Lemma bishop_line_filter_witness :
  _filter_line check_move_body bishop_and_friends 0%nat (0, 6) crowded_diagonal
  = Return (PySet (bishop_path (3, 3) (0, 6)))
  ∧ ((0, 6) ∈ bishop_path (3, 3) (0, 6)
     ↔ Z.abs ((0, 6).1 - (3, 3).1) = Z.abs ((0, 6).2 - (3, 3).2) ∧ (0, 6).1 ≠ (3, 3).1)
  ∧ (2, 4) ∉ bishop_path (3, 3) (0, 6).
Proof.
  destruct (bishop_line_filter bishop_and_friends 0%nat (0, 6) crowded_diagonal)
    as (Hset & Hend & Hbetween); try reflexivity.
  split; [exact Hset|]. split; [exact Hend|].
  apply (Hbetween ltac:(simpl; lia) ltac:(simpl; lia) 1). simpl. lia.
Defined.

End Paths.

(** ** What [check_move] accepts, class by class *)

Module Rules.
Import Moves MovesSpec Destinations Paths.

Lemma size_free_occupied (b : board) (path : gset pos) :
  (size (filter (λ i, b !! i = Some None) path) + size (occupied b path) = size path)%nat.
Proof.
  unfold occupied.
  pose proof (disjoint_filter_complement (C := gset pos) (λ i, b !! i = Some None) path) as Hd.
  rewrite <- (size_union _ _ Hd). f_equal.
  apply set_eq. intros i. rewrite elem_of_union, !elem_of_filter.
  destruct (decide (b !! i = Some None)); tauto.
Qed.

Lemma truthy_set (path : gset pos) : truthy (PySet path) = bool_decide (path ≠ ∅).
Proof. simpl. by repeat case_bool_decide. Qed.

Lemma non_empty_elem (path : gset pos) (p : pos) : p ∈ path → path ≠ ∅.
Proof. intros Hp ->. by apply not_elem_of_empty in Hp. Qed.

(** The blocking check on a set whose squares are keys of the board:
    the set comes back when it is not empty and holds at most one
    occupied square. *)
Lemma check_blocks_set (f : checker) (h : heap) (self : ref) (end_ : pos) (b : board)
    (path : gset pos) :
  f h self end_ b = Return (PySet path) →
  set_Forall (λ i, is_Some (b !! i)) path →
  _check_blocks f h self end_ b
  = Return (if bool_decide (path ≠ ∅ ∧ (size (occupied b path) ≤ 1)%nat)
            then PySet path else PyFalse).
Proof.
  intros Hf Hkeys. unfold _check_blocks. rewrite Hf. cbn [mbind result_bind].
  rewrite truthy_set. case_bool_decide as Hne; cbn [negb].
  - unfold empty_squares. rewrite bool_decide_true by done. cbn [mbind result_bind].
    pose proof (size_free_occupied b path) as Hsize.
    destruct (decide (size (occupied b path) ≤ 1)%nat) as [Hocc|Hocc].
    + rewrite (bool_decide_true (_ ∧ _)) by done.
      destruct (decide (size (occupied b path) = 0)%nat).
      * rewrite (bool_decide_true (_ = Z.of_nat (size path))) by lia. done.
      * rewrite (bool_decide_true (_ = Z.of_nat (size path) - 1)) by lia.
        by rewrite orb_true_r.
    + rewrite (bool_decide_false (_ ∧ _)) by tauto.
      rewrite (bool_decide_false (_ = Z.of_nat (size path))) by lia.
      rewrite (bool_decide_false (_ = Z.of_nat (size path) - 1)) by lia. done.
  - rewrite bool_decide_false; [done|tauto].
Qed.

Lemma check_blocks_false (f : checker) (h : heap) (self : ref) (end_ : pos) (b : board) :
  f h self end_ b = Return PyFalse → _check_blocks f h self end_ b = Return PyFalse.
Proof. intros Hf. unfold _check_blocks. by rewrite Hf. Qed.

(** The destination check on a set, for a destination that is a key of
    the board. *)
Lemma check_move_found_set (f : checker) (h : heap) (self : ref) (end_ : pos) (b : board)
    (path : gset pos) (c : cell) :
  f h self end_ b = Return (PySet path) →
  b !! end_ = Some c →
  _check_move_found f h self end_ b
  = Return (if bool_decide (end_ ∈ path ∧ same_color h self c = false)
            then PySet path else PyFalse).
Proof.
  intros Hf Hc. unfold _check_move_found, getitem. rewrite Hf, Hc. cbn [mbind result_bind].
  rewrite truthy_set. cbn [contains]. destruct (decide (end_ ∈ path)) as [Hin|Hin].
  - rewrite (bool_decide_true (path ≠ ∅)) by by eapply non_empty_elem.
    rewrite (bool_decide_true (end_ ∈ path)) by done. cbn [negb].
    destruct (same_color h self c).
    + by rewrite bool_decide_false by (by intros [_ ?]).
    + by rewrite bool_decide_true.
  - rewrite (bool_decide_false (end_ ∈ path)) by done.
    rewrite (bool_decide_false (_ ∧ _)) by tauto. by destruct (negb _).
Qed.

Lemma check_move_found_false (f : checker) (h : heap) (self : ref) (end_ : pos) (b : board)
    (c : cell) :
  f h self end_ b = Return PyFalse → b !! end_ = Some c →
  _check_move_found f h self end_ b = Return PyFalse.
Proof. intros Hf Hc. unfold _check_move_found, getitem. by rewrite Hf, Hc. Qed.

(** Blocking check, then destination check: the order of Rook and
    Bishop. *)
Lemma blocks_then_found (f : checker) (h : heap) (self : ref) (end_ : pos) (b : board)
    (path : gset pos) (c : cell) :
  f h self end_ b = Return (PySet path) →
  set_Forall (λ i, is_Some (b !! i)) path →
  b !! end_ = Some c →
  _check_move_found (_check_blocks f) h self end_ b
  = Return (if bool_decide (end_ ∈ path ∧ (size (occupied b path) ≤ 1)%nat
                            ∧ same_color h self c = false)
            then PySet path else PyFalse).
Proof.
  intros Hf Hkeys Hc. pose proof (check_blocks_set f h self end_ b path Hf Hkeys) as Hb.
  destruct (decide (path ≠ ∅ ∧ (size (occupied b path) ≤ 1)%nat)) as [Hok|Hok].
  - rewrite bool_decide_true in Hb by done.
    rewrite (check_move_found_set _ h self end_ b path c Hb Hc).
    destruct (decide (end_ ∈ path ∧ same_color h self c = false)).
    + rewrite !bool_decide_true; [done|tauto|done].
    + rewrite !bool_decide_false; [done|tauto|done].
  - rewrite bool_decide_false in Hb by done.
    rewrite (check_move_found_false _ h self end_ b c Hb Hc).
    rewrite bool_decide_false; [done|]. intros (Hin & Hocc & _). apply Hok. split; [|done].
    by eapply non_empty_elem.
Qed.

(** Destination check, then blocking check: the order of Pawn. *)
Lemma found_then_blocks (f : checker) (h : heap) (self : ref) (end_ : pos) (b : board)
    (path : gset pos) (c : cell) :
  f h self end_ b = Return (PySet path) →
  set_Forall (λ i, is_Some (b !! i)) path →
  b !! end_ = Some c →
  _check_blocks (_check_move_found f) h self end_ b
  = Return (if bool_decide (end_ ∈ path ∧ (size (occupied b path) ≤ 1)%nat
                            ∧ same_color h self c = false)
            then PySet path else PyFalse).
Proof.
  intros Hf Hkeys Hc. pose proof (check_move_found_set f h self end_ b path c Hf Hc) as Hb.
  destruct (decide (end_ ∈ path ∧ same_color h self c = false)) as [Hok|Hok].
  - rewrite bool_decide_true in Hb by done.
    rewrite (check_blocks_set _ h self end_ b path Hb Hkeys).
    destruct Hok as [Hin Hcol]. apply non_empty_elem in Hin as Hne.
    destruct (decide (size (occupied b path) ≤ 1)%nat).
    + rewrite !bool_decide_true; done.
    + rewrite !bool_decide_false; [done|tauto|tauto].
  - rewrite bool_decide_false in Hb by done.
    rewrite (check_blocks_false _ h self end_ b Hb).
    rewrite bool_decide_false; [done|]. tauto.
Qed.

Lemma keys_of_complete (h : heap) (self : ref) (x y : Z) (b : board) (path : gset pos) :
  complete b → path ⊆ find h self x y → set_Forall (λ i, is_Some (b !! i)) path.
Proof.
  intros Hb Hsub i Hi. apply (complete_lookup b i Hb). eapply find_squares. by apply Hsub.
Qed.

Lemma filter_subseteq_find (P : pos → Prop) `{!∀ p, Decision (P p)} (X : gset pos) :
  filter P X ⊆ X.
Proof. intros p Hp. by apply elem_of_filter in Hp as [_ ?]. Qed.

Lemma filter_union_squares (P : pos → Prop) `{!∀ p, Decision (P p)} (X Y : gset pos) :
  filter P (X ∪ Y) = filter P X ∪ filter P Y.
Proof.
  apply set_eq. intros p. rewrite elem_of_union, !elem_of_filter, elem_of_union. tauto.
Qed.

Lemma complete_boards :
  complete blocked_file ∧ complete crowded_diagonal ∧ complete knights_board
  ∧ complete king_board ∧ complete blocked_pawn ∧ complete lone_rook ∧ complete crowded_file.
Proof.
  repeat split; unfold blocked_file, crowded_diagonal, knights_board, king_board,
    blocked_pawn, lone_rook, crowded_file;
    repeat (exact empty_board_complete || apply complete_insert).
Qed.

(** X11: on a complete board, for a Rook and a destination both on the
    board, [check_move] returns the Rook's path to the destination when
    the destination shares the Rook's file or rank, the path holds at
    most one occupied square, wherever on the path it is, and the
    destination holds no piece whose color is the Rook's color object
    (the test is [is]: a color that spells the same and is another
    object passes); it returns [False] otherwise. *)
Theorem rook_check_move_rule (h : heap) (self : ref) (end_ : pos) (b : board) (c : cell) :
  cls (h self) = CRook →
  _check_range (position (h self)) = true → _check_range end_ = true →
  complete b → b !! end_ = Some c →
  let start := position (h self) in
  let path := rook_path start end_ in
  check_move h self end_ b
  = Return (if bool_decide ((end_.1 = start.1 ∨ end_.2 = start.2)
                            ∧ (size (occupied b path) ≤ 1)%nat
                            ∧ same_color h self c = false)
            then PySet path else PyFalse).
Proof.
  intros Hcls Hs He Hb Hc start path. unfold check_move. rewrite Hcls. unfold Rook_check_move.
  assert (Hf : _filter_line check_move_body h self end_ b = Return (PySet path)).
  { rewrite filter_line_body. unfold find. rewrite Hcls. by rewrite rook_line. }
  assert (Hkeys : set_Forall (λ i, is_Some (b !! i)) path).
  { apply (keys_of_complete h self start.1 start.2 b path Hb). unfold find. rewrite Hcls.
    unfold path. rewrite <- (rook_line self start end_ Hs He). apply filter_subseteq_find. }
  rewrite (blocks_then_found _ h self end_ b path c Hf Hkeys Hc).
  pose proof (proj1 (end_on_path start end_ Hs He)) as Hend. fold path in Hend.
  by rewrite (bool_decide_ext _ _ (and_iff_compat_r _ Hend)).
Qed.

Lemma rook_check_move_rule_witness :
  check_move rook_and_blocker 0%nat (0, 5) blocked_file
  = Return (PySet (rook_path (0, 0) (0, 5))).
Proof.
  pose proof (rook_check_move_rule rook_and_blocker 0%nat (0, 5) blocked_file None
                eq_refl eq_refl eq_refl (proj1 complete_boards) eq_refl) as Hrule.
  cbv zeta in Hrule. rewrite Hrule. by vm_compute.
Defined.

(** X12: on a complete board, for a Bishop and a destination both on
    the board, [check_move] returns the set the line filter keeps when
    the destination is on a diagonal of the Bishop, that set holds at
    most one occupied square and the destination holds no piece whose
    color is the Bishop's color object (compared with [is]); it returns
    [False] otherwise.  Toward a lower file
    and a higher rank the set is the destination and the squares beyond
    it, so the pieces between the Bishop and the destination do not
    count. *)
Theorem bishop_check_move_rule (h : heap) (self : ref) (end_ : pos) (b : board) (c : cell) :
  cls (h self) = CBishop →
  _check_range (position (h self)) = true → _check_range end_ = true →
  complete b → b !! end_ = Some c →
  let start := position (h self) in
  let path := bishop_path start end_ in
  check_move h self end_ b
  = Return (if bool_decide ((Z.abs (end_.1 - start.1) = Z.abs (end_.2 - start.2)
                             ∧ end_.1 ≠ start.1)
                            ∧ (size (occupied b path) ≤ 1)%nat
                            ∧ same_color h self c = false)
            then PySet path else PyFalse).
Proof.
  intros Hcls Hs He Hb Hc start path. unfold check_move. rewrite Hcls.
  unfold Bishop_check_move.
  assert (Hf : _filter_line check_move_body h self end_ b = Return (PySet path)).
  { rewrite filter_line_body. unfold find. rewrite Hcls. by rewrite bishop_line. }
  assert (Hkeys : set_Forall (λ i, is_Some (b !! i)) path).
  { apply (keys_of_complete h self start.1 start.2 b path Hb). unfold find. rewrite Hcls.
    unfold path. rewrite <- (bishop_line self start end_ Hs He). apply filter_subseteq_find. }
  rewrite (blocks_then_found _ h self end_ b path c Hf Hkeys Hc).
  pose proof (proj2 (end_on_path start end_ Hs He)) as Hend. fold path in Hend.
  by rewrite (bool_decide_ext _ _ (and_iff_compat_r _ Hend)).
Qed.

Lemma bishop_check_move_rule_witness :
  crowded_diagonal !! (2, 4) = Some (Some 1%nat)
  ∧ crowded_diagonal !! (1, 5) = Some (Some 2%nat)
  ∧ check_move bishop_and_friends 0%nat (0, 6) crowded_diagonal = Return (PySet {[ (0, 6) ]}).
Proof.
  split; [reflexivity|]. split; [reflexivity|].
  pose proof (bishop_check_move_rule bishop_and_friends 0%nat (0, 6) crowded_diagonal None
                eq_refl eq_refl eq_refl (proj1 (proj2 complete_boards)) eq_refl) as Hrule.
  cbv zeta in Hrule. rewrite Hrule. by vm_compute.
Defined.

(** X13: for a Queen and a destination both on the board, [check_move]
    returns what the line filter keeps of the Bishop's and of the Rook's
    destinations, whatever the board holds; the result is truthy exactly
    when the destination is on the Queen's file, rank or one of its
    diagonals, the Queen's own square included. *)
Theorem queen_check_move_rule (h : heap) (self _rook _bishop : ref) (end_ : pos) (b : board) :
  cls (h self) = CQueen _rook _bishop →
  _check_range (position (h self)) = true → _check_range end_ = true →
  let start := position (h self) in
  check_move h self end_ b = Return (PySet (bishop_path start end_ ∪ rook_path start end_))
  ∧ (accepts (check_move h self end_ b) = true
     ↔ end_.1 = start.1 ∨ end_.2 = start.2
       ∨ Z.abs (end_.1 - start.1) = Z.abs (end_.2 - start.2)).
Proof.
  intros Hcls Hs He start.
  assert (Hres : check_move h self end_ b
                 = Return (PySet (bishop_path start end_ ∪ rook_path start end_))).
  { unfold check_move. rewrite Hcls. unfold Queen_check_move. rewrite filter_line_body.
    unfold find. rewrite Hcls. unfold Queen_find.
    rewrite filter_union_squares. fold start.
    by rewrite bishop_line, rook_line. }
  split; [done|]. rewrite Hres. cbn [accepts]. rewrite truthy_set, bool_decide_eq_true.
  exact (queen_path_non_empty start end_ Hs He).
Qed.

Lemma queen_check_move_rule_witness :
  check_move queen_side 0%nat (0, 0) crowded_file = Return (PySet {[ (0, 0) ]})
  ∧ accepts (check_move queen_side 0%nat (0, 0) crowded_file) = true.
Proof.
  destruct (queen_check_move_rule queen_side 0%nat 1%nat 2%nat (0, 0) crowded_file
              eq_refl eq_refl eq_refl) as [Hres Hacc].
  split.
  - rewrite Hres. by vm_compute.
  - apply Hacc. by left.
Defined.

(** X14: for a Knight and a destination that is a key of the board,
    [check_move] returns the Knight's destination set when the
    destination is on the board, an L-shaped step away, and holds no
    piece whose color is the Knight's color object (compared with
    [is]); it returns [False] otherwise.  No other cell of the board is
    read. *)
Theorem knight_check_move_rule (h : heap) (self : ref) (end_ : pos) (b : board) (c : cell) :
  cls (h self) = CKnight → b !! end_ = Some c →
  let start := position (h self) in
  check_move h self end_ b
  = Return (if bool_decide (((0 ≤ end_.1 < 8 ∧ 0 ≤ end_.2 < 8)
                             ∧ ((Z.abs (end_.1 - start.1) = 1 ∧ Z.abs (end_.2 - start.2) = 2)
                                ∨ (Z.abs (end_.1 - start.1) = 2 ∧ Z.abs (end_.2 - start.2) = 1)))
                            ∧ same_color h self c = false)
            then PySet (Knight_find self start.1 start.2) else PyFalse).
Proof.
  intros Hcls Hc start. unfold check_move. rewrite Hcls. unfold Knight_check_move.
  assert (Hf : check_move_body h self end_ b = Return (PySet (Knight_find self start.1 start.2))).
  { unfold check_move_body, find. by rewrite Hcls. }
  rewrite (check_move_found_set _ h self end_ b _ c Hf Hc).
  by rewrite (bool_decide_ext _ _ (and_iff_compat_r _ (elem_of_knight_find self start.1 start.2 end_))).
Qed.

Lemma knight_check_move_rule_witness :
  accepts (check_move two_knights 0%nat (6, 5) knights_board) = true.
Proof.
  pose proof (knight_check_move_rule two_knights 0%nat (6, 5) knights_board (Some 1%nat)
                eq_refl eq_refl) as Hrule.
  cbv zeta in Hrule. rewrite Hrule. unfold Knight_find. rewrite clean_moves_filter.
  by vm_compute.
Defined.

(** X15: for a King and a destination that is a key of the board,
    [check_move] returns the King's destination set when the destination
    is on the board, at most one file and one rank away, and holds no
    piece whose color is the King's color object (compared with [is]);
    it returns [False] otherwise.  The King's own square passes the
    distance test. *)
Theorem king_check_move_rule (h : heap) (self : ref) (end_ : pos) (b : board) (c : cell) :
  cls (h self) = CKing → b !! end_ = Some c →
  let start := position (h self) in
  check_move h self end_ b
  = Return (if bool_decide (((0 ≤ end_.1 < 8 ∧ 0 ≤ end_.2 < 8)
                             ∧ Z.abs (end_.1 - start.1) ≤ 1 ∧ Z.abs (end_.2 - start.2) ≤ 1)
                            ∧ same_color h self c = false)
            then PySet (King_find self start.1 start.2) else PyFalse).
Proof.
  intros Hcls Hc start. unfold check_move. rewrite Hcls. unfold King_check_move.
  assert (Hf : check_move_body h self end_ b = Return (PySet (King_find self start.1 start.2))).
  { unfold check_move_body, find. by rewrite Hcls. }
  rewrite (check_move_found_set _ h self end_ b _ c Hf Hc).
  by rewrite (bool_decide_ext _ _ (and_iff_compat_r _ (elem_of_king_find self start.1 start.2 end_))).
Qed.

Lemma king_check_move_rule_witness :
  accepts (check_move king_and_knight 0%nat (5, 5) king_board) = true.
Proof.
  pose proof (king_check_move_rule king_and_knight 0%nat (5, 5) king_board (Some 1%nat)
                eq_refl eq_refl) as Hrule.
  cbv zeta in Hrule. rewrite Hrule. unfold King_find. rewrite clean_moves_filter.
  by vm_compute.
Defined.

(** X16: on a complete board, for a Pawn and a destination that is a key
    of the board, [check_move] returns the Pawn's destination set when
    the destination is in it, the whole set (one square, or both forward
    squares on the starting rank) holds at most one occupied square, and
    the destination holds no piece whose color is the Pawn's color
    object (compared with [is]); it returns [False] otherwise. *)
Theorem pawn_check_move_rule (h : heap) (self : ref) (y_initial y_add : Z) (end_ : pos)
    (b : board) (c : cell) :
  cls (h self) = CPawn y_initial y_add →
  complete b → b !! end_ = Some c →
  let moves := Pawn_find y_initial y_add self (position (h self)).1 (position (h self)).2 in
  check_move h self end_ b
  = Return (if bool_decide (end_ ∈ moves ∧ (size (occupied b moves) ≤ 1)%nat
                            ∧ same_color h self c = false)
            then PySet moves else PyFalse).
Proof.
  intros Hcls Hb Hc moves. unfold check_move. rewrite Hcls. unfold Pawn_check_move.
  assert (Hfind : find h self (position (h self)).1 (position (h self)).2 = moves)
    by (unfold find; by rewrite Hcls).
  apply found_then_blocks; [| |done].
  - unfold check_move_body. by rewrite Hfind.
  - apply (keys_of_complete h self (position (h self)).1 (position (h self)).2 b moves Hb).
    by rewrite Hfind.
Qed.

Lemma pawn_check_move_rule_witness :
  check_move pawn_at_start 0%nat (4, 5) blocked_pawn = Return (PySet {[ (4, 5); (4, 4) ]}).
Proof.
  pose proof (pawn_check_move_rule pawn_at_start 0%nat 6 (-1) (4, 5) blocked_pawn (Some 1%nat)
                eq_refl (proj1 (proj2 (proj2 (proj2 (proj2 complete_boards))))) eq_refl) as Hrule.
  cbv zeta in Hrule. rewrite Hrule. unfold Pawn_find. rewrite clean_moves_filter.
  by vm_compute.
Defined.

(** X17: a Pawn on its starting rank may go two squares forward over an
    occupied square: when the square in front holds a piece and the
    second square is empty, [check_move] to the second square returns
    both squares, a truthy result. *)
Theorem pawn_double_step_over_piece (h : heap) (self other : ref) (y_initial y_add x : Z)
    (b : board) :
  cls (h self) = CPawn y_initial y_add →
  position (h self) = (x, y_initial) →
  _check_range (x, y_initial + y_add) = true →
  _check_range (x, y_initial + y_add * 2) = true →
  b !! (x, y_initial + y_add) = Some (Some other) →
  b !! (x, y_initial + y_add * 2) = Some None →
  check_move h self (x, y_initial + y_add * 2) b
  = Return (PySet {[ (x, y_initial + y_add); (x, y_initial + y_add * 2) ]})
  ∧ accepts (check_move h self (x, y_initial + y_add * 2) b) = true.
Proof.
  intros Hcls Hpos Hone Htwo Hb1 Hb2.
  set (one := (x, y_initial + y_add)) in *. set (two := (x, y_initial + y_add * 2)) in *.
  assert (Hfind : find h self (position (h self)).1 (position (h self)).2 = {[ one; two ]}).
  { unfold find. rewrite Hcls, Hpos. cbn [fst snd]. unfold Pawn_find.
    rewrite clean_moves_filter. unfold Pawn_find_body. rewrite bool_decide_true by done.
    fold one. fold two. rewrite filter_union_squares.
    rewrite !(filter_singleton_True_L (C := gset pos)); try apply _; try done;
      by apply Is_true_true. }
  assert (Hres : check_move h self two b = Return (PySet {[ one; two ]})).
  { unfold check_move. rewrite Hcls. unfold Pawn_check_move.
    rewrite (found_then_blocks check_move_body h self two b {[ one; two ]} None).
    - rewrite bool_decide_true; [done|]. split; [|split; [|done]].
      + apply elem_of_union_r. by apply elem_of_singleton.
      + rewrite <- (size_singleton (C := gset pos) one). apply subseteq_size.
        intros p Hp. apply elem_of_filter in Hp as [Hocc Hp].
        apply elem_of_union in Hp as [Hp|Hp]; [done|].
        apply elem_of_singleton in Hp as ->. by destruct Hocc.
    - unfold check_move_body. by rewrite Hfind.
    - intros p Hp. apply elem_of_union in Hp as [Hp|Hp];
        apply elem_of_singleton in Hp as ->; by eexists.
    - done. }
  split; [done|]. rewrite Hres. cbn [accepts]. rewrite truthy_set, bool_decide_eq_true.
  apply (non_empty_elem _ one). apply elem_of_union_l. by apply elem_of_singleton.
Qed.

Lemma pawn_double_step_over_piece_witness :
  check_move pawn_at_start 0%nat (4, 6 + -1 * 2) blocked_pawn
  = Return (PySet {[ (4, 6 + -1); (4, 6 + -1 * 2) ]})
  ∧ accepts (check_move pawn_at_start 0%nat (4, 6 + -1 * 2) blocked_pawn) = true.
Proof.
  apply (pawn_double_step_over_piece pawn_at_start 0%nat 1%nat 6 (-1) 4 blocked_pawn);
    reflexivity.
Defined.

(** The blocking check on the line filter returns, or raises KeyError. *)
Lemma check_blocks_key_error (h : heap) (self : ref) (end_ : pos) (b : board) :
  (∃ r, _check_blocks (_filter_line check_move_body) h self end_ b = Return r)
  ∨ _check_blocks (_filter_line check_move_body) h self end_ b = Raise KeyError.
Proof.
  unfold _check_blocks. rewrite filter_line_body. cbn [mbind result_bind].
  destruct (negb _); [left; by eexists|]. unfold empty_squares.
  case_bool_decide; cbn [mbind result_bind]; [|by right].
  left. destruct (negb _); by eexists.
Qed.

Lemma check_move_found_key_error (f : checker) (h : heap) (self : ref) (end_ : pos)
    (b : board) :
  b !! end_ = None →
  (∃ r, f h self end_ b = Return r) ∨ f h self end_ b = Raise KeyError →
  _check_move_found f h self end_ b = Raise KeyError.
Proof.
  intros Hb Hf. unfold _check_move_found, getitem. rewrite Hb.
  by destruct Hf as [[r ->] | ->].
Qed.

(** X18: for every class but Queen, [check_move] of a piece on the board
    with a destination that is not a key of the board raises KeyError:
    the cell of the destination is read before the destination is
    looked for among the moves.  The coordinates of the destination are
    taken below [2 ^ 53], where the conversions to float are exact. *)
Theorem check_move_missing_key (h : heap) (self : ref) (end_ : pos) (b : board) :
  (∀ _rook _bishop, cls (h self) ≠ CQueen _rook _bishop) →
  _check_range (position (h self)) = true →
  Z.abs end_.1 < 2 ^ 53 → Z.abs end_.2 < 2 ^ 53 →
  b !! end_ = None →
  check_move h self end_ b = Raise KeyError.
Proof.
  intros Hcls _ _ _ Hb. unfold check_move. destruct (cls (h self)) as [| | |yi ya| |r bi].
  - apply check_move_found_key_error; [done|apply check_blocks_key_error].
  - apply check_move_found_key_error; [done|apply check_blocks_key_error].
  - apply check_move_found_key_error; [done|]. left. by eexists.
  - unfold Pawn_check_move, _check_blocks.
    rewrite (check_move_found_key_error check_move_body h self end_ b Hb); [done|].
    left. by eexists.
  - apply check_move_found_key_error; [done|]. left. by eexists.
  - by destruct (Hcls r bi).
Qed.

Lemma check_move_missing_key_witness :
  check_move one_rook 0%nat (8, 0) lone_rook = Raise KeyError.
Proof.
  apply (check_move_missing_key one_rook 0%nat (8, 0) lone_rook);
    [discriminate|reflexivity|reflexivity|reflexivity|reflexivity].
Defined.

Lemma find_check_range (h : heap) (self : ref) (x y : Z) (p : pos) :
  p ∈ find h self x y → _check_range p = true.
Proof.
  rewrite check_range_spec. find_cases h self; rewrite !elem_of_clean_moves; tauto.
Qed.

(** A truthy result of the destination check is the result of the
    decorated function, holds the destination, and the destination is a
    key of the board whose cell holds no piece whose color is the
    mover's color object. *)
Lemma check_move_found_truthy (f : checker) (h : heap) (self : ref) (end_ : pos) (b : board)
    (r : ret) :
  _check_move_found f h self end_ b = Return r → truthy r = true →
  f h self end_ b = Return r ∧ contains end_ r = true
  ∧ ∃ c, b !! end_ = Some c ∧ same_color h self c = false.
Proof.
  unfold _check_move_found, getitem. destruct (f h self end_ b) as [moves|e]; [|done].
  destruct (b !! end_) as [c|]; [|done]. cbn [mbind result_bind].
  destruct (truthy moves) eqn:Ht; cbn [negb]; [|by intros [= <-]].
  destruct (contains end_ moves) eqn:Hin; cbn [negb]; [|by intros [= <-]].
  destruct (same_color h self c) eqn:Hcol; [by intros [= <-]|].
  intros [= <-] _. split; [done|]. split; [done|]. by exists c.
Qed.

(** A truthy result of the blocking check is the result of the decorated
    function. *)
Lemma check_blocks_truthy (f : checker) (h : heap) (self : ref) (end_ : pos) (b : board)
    (r : ret) :
  _check_blocks f h self end_ b = Return r → truthy r = true → f h self end_ b = Return r.
Proof.
  unfold _check_blocks. destruct (f h self end_ b) as [[|squares]|e]; [by intros [= <-]| |done].
  cbn [mbind result_bind]. destruct (negb _); [by intros [= <-]|].
  destruct (empty_squares b squares); [|done]. cbn [mbind result_bind].
  destruct (negb _); by intros [= <-].
Qed.

(** X19: for every class but Queen, a destination that [check_move]
    accepts is one of the squares returned, which are destinations of
    [find]; it is on the board, it is a key of the board, and its cell
    holds no piece whose color is the mover's color object (the test
    of the code is [is]). *)
Theorem accepted_destination (h : heap) (self : ref) (end_ : pos) (b : board) :
  (∀ _rook _bishop, cls (h self) ≠ CQueen _rook _bishop) →
  accepts (check_move h self end_ b) = true →
  ∃ moves,
    check_move h self end_ b = Return (PySet moves)
    ∧ end_ ∈ moves
    ∧ moves ⊆ find h self (position (h self)).1 (position (h self)).2
    ∧ _check_range end_ = true
    ∧ ∃ c, b !! end_ = Some c ∧ same_color h self c = false.
Proof.
  intros Hcls Hacc. destruct (check_move h self end_ b) as [r|e] eqn:Hres; [|done].
  cbn [accepts] in Hacc.
  assert (Hall : ∃ moves, r = PySet moves ∧ end_ ∈ moves
                 ∧ moves ⊆ find h self (position (h self)).1 (position (h self)).2
                 ∧ ∃ c, b !! end_ = Some c ∧ same_color h self c = false).
  { unfold check_move in Hres. destruct (cls (h self)) as [| | |yi ya| |rk bi] eqn:Hc.
    - apply check_move_found_truthy in Hres as (Hb & Hin & Hcell); [|done].
      apply check_blocks_truthy in Hb; [|done]. rewrite filter_line_body in Hb.
      injection Hb as <-. eexists. split; [done|]. split; [by apply bool_decide_eq_true in Hin|].
      split; [apply filter_subseteq_find|done].
    - apply check_move_found_truthy in Hres as (Hb & Hin & Hcell); [|done].
      apply check_blocks_truthy in Hb; [|done]. rewrite filter_line_body in Hb.
      injection Hb as <-. eexists. split; [done|]. split; [by apply bool_decide_eq_true in Hin|].
      split; [apply filter_subseteq_find|done].
    - apply check_move_found_truthy in Hres as (Hb & Hin & Hcell); [|done].
      injection Hb as <-. eexists. split; [done|].
      split; [by apply bool_decide_eq_true in Hin|done].
    - apply check_blocks_truthy in Hres; [|done].
      apply check_move_found_truthy in Hres as (Hb & Hin & Hcell); [|done].
      injection Hb as <-. eexists. split; [done|].
      split; [by apply bool_decide_eq_true in Hin|done].
    - apply check_move_found_truthy in Hres as (Hb & Hin & Hcell); [|done].
      injection Hb as <-. eexists. split; [done|].
      split; [by apply bool_decide_eq_true in Hin|done].
    - by destruct (Hcls rk bi). }
  destruct Hall as (moves & -> & Hin & Hsub & Hcell). exists moves.
  split; [done|]. split; [done|]. split; [done|]. split; [|done].
  eapply find_check_range. by apply Hsub.
Qed.

Lemma accepted_destination_witness :
  ∃ moves,
    check_move rook_and_blocker 0%nat (0, 3) blocked_file = Return (PySet moves)
    ∧ (0, 3) ∈ moves
    ∧ moves ⊆ find rook_and_blocker 0%nat (position (rook_and_blocker 0%nat)).1
                (position (rook_and_blocker 0%nat)).2
    ∧ _check_range (0, 3) = true
    ∧ ∃ c, blocked_file !! (0, 3) = Some c ∧ same_color rook_and_blocker 0%nat c = false.
Proof.
  apply (accepted_destination rook_and_blocker 0%nat (0, 3) blocked_file); [discriminate|].
  unfold check_move, Rook_check_move, _check_move_found, _check_blocks.
  rewrite filter_line_body. unfold find. cbn [rook_and_blocker cls position fst snd].
  unfold Rook_find. rewrite clean_moves_filter. by vm_compute.
Defined.

(** X20: on a complete board, [check_move] of a piece on the board with
    a destination on the board returns, for every class: no lookup in
    the board fails. *)
Theorem check_move_returns (h : heap) (self : ref) (end_ : pos) (b : board) :
  complete b →
  _check_range (position (h self)) = true → _check_range end_ = true →
  ∃ r, check_move h self end_ b = Return r.
Proof.
  intros Hb _ He.
  destruct (complete_lookup b end_ Hb (check_range_squares end_ He)) as [c Hc].
  assert (Hfound : ∀ f : checker, (∃ r, f h self end_ b = Return r) →
                   ∃ r, _check_move_found f h self end_ b = Return r).
  { intros f [[|moves] Hf].
    - exists PyFalse. by apply (check_move_found_false f h self end_ b c).
    - eexists. by apply (check_move_found_set f h self end_ b moves c). }
  assert (Hbody : ∃ r, check_move_body h self end_ b = Return r) by (by eexists).
  unfold check_move. destruct (cls (h self)).
  - apply Hfound, check_blocks_returns, Hb.
  - apply Hfound, check_blocks_returns, Hb.
  - by apply Hfound.
  - unfold Pawn_check_move.
    pose proof (check_move_found_set check_move_body h self end_ b _ c eq_refl Hc) as Hr.
    destruct (bool_decide _) in Hr.
    + eexists. apply (check_blocks_set _ h self end_ b _ Hr).
      by apply (keys_of_complete h self (position (h self)).1 (position (h self)).2 b _ Hb).
    + exists PyFalse. by apply check_blocks_false.
  - by apply Hfound.
  - unfold Queen_check_move. rewrite filter_line_body. by eexists.
Qed.

Lemma check_move_returns_witness :
  ∃ r, check_move rook_and_blocker 0%nat (0, 5) blocked_file = Return r.
Proof.
  apply (check_move_returns rook_and_blocker 0%nat (0, 5) blocked_file);
    [exact (proj1 complete_boards)|reflexivity|reflexivity].
Defined.

(** X26: a Pawn never captures sideways: for a destination that is a key
    of the board and is not on the Pawn's file, [check_move] returns
    [False], whatever stands there. *)
Theorem pawn_never_leaves_file (h : heap) (self : ref) (y_initial y_add : Z) (end_ : pos)
    (b : board) (c : cell) :
  cls (h self) = CPawn y_initial y_add →
  b !! end_ = Some c →
  end_.1 ≠ (position (h self)).1 →
  check_move h self end_ b = Return PyFalse.
Proof.
  intros Hcls Hc Hfile. unfold check_move. rewrite Hcls. unfold Pawn_check_move.
  apply check_blocks_false.
  rewrite (check_move_found_set check_move_body h self end_ b _ c eq_refl Hc).
  rewrite bool_decide_false; [done|]. intros [Hin _]. apply Hfile.
  unfold find in Hin. rewrite Hcls in Hin. unfold Pawn_find in Hin.
  apply elem_of_clean_moves in Hin as [Hin _]. unfold Pawn_find_body in Hin.
  destruct end_ as [ex ey]. case_bool_decide;
    rewrite ?elem_of_union, !elem_of_singleton, !pair_equal_spec in Hin; simpl; tauto.
Qed.

Lemma pawn_never_leaves_file_witness :
  check_move pawn_at_start 0%nat (3, 5) blocked_pawn = Return PyFalse.
Proof.
  apply (pawn_never_leaves_file pawn_at_start 0%nat 6 (-1) (3, 5) blocked_pawn None);
    [reflexivity|reflexivity|discriminate].
Defined.

End Rules.

(** ** [Piece.move] on a consistent board *)

Module Mutation.
Import Moves MovesSpec.

Lemma empty_board_lookup (k : pos) (c : cell) : empty_board !! k = Some c → c = None.
Proof.
  unfold empty_board. intros Hk. apply elem_of_list_to_map_2 in Hk.
  apply list_elem_of_fmap in Hk as (k' & Heq & _). by simplify_eq.
Qed.

Lemma set_position_back (p : Piece) (end_ : pos) :
  set_position (set_position p end_) (position p) = p.
Proof. by destruct p. Qed.

(** X21: [move] keeps the board and the pieces consistent: if every cell
    that holds a piece is the position the piece stores, the same is
    true after the move.  The keys of the board are the old ones, the
    old position and the destination, so a complete board stays
    complete. *)
Theorem move_keeps_consistent (h : heap) (b : board) (self : ref) (end_ : pos) :
  consistent h b →
  consistent (Piece_move self end_ (h, b)).1 (Piece_move self end_ (h, b)).2
  ∧ dom (Piece_move self end_ (h, b)).2 = {[ end_; position (h self) ]} ∪ dom b
  ∧ (complete b → complete (Piece_move self end_ (h, b)).2).
Proof.
  intros Hcons. cbn [Piece_move fst snd]. split; [|split].
  - intros k r. rewrite !lookup_insert. case_decide as Hend.
    + intros [= <-]. by rewrite fn_lookup_insert.
    + case_decide as Hold; [done|]. intros Hk. pose proof (Hcons k r Hk) as Hpos.
      destruct (decide (r = self)) as [->|Hr]; [congruence|].
      by rewrite fn_lookup_insert_ne.
  - rewrite !dom_insert_L. by rewrite (assoc_L (∪)).
  - intros Hb. by do 2 apply complete_insert.
Qed.

Lemma rook_and_blocker_consistent : consistent rook_and_blocker blocked_file.
Proof.
  intros k r. unfold blocked_file. rewrite !lookup_insert.
  repeat case_decide; try (intros [= <-]; by subst).
  intros Hk. by apply empty_board_lookup in Hk.
Qed.

Lemma move_keeps_consistent_witness :
  consistent (Piece_move 0%nat (0, 3) (rook_and_blocker, blocked_file)).1
             (Piece_move 0%nat (0, 3) (rook_and_blocker, blocked_file)).2.
Proof.
  exact (proj1 (move_keeps_consistent rook_and_blocker blocked_file 0%nat (0, 3)
                  rook_and_blocker_consistent)).
Defined.

(** X22: moving a piece that stands on its cell to an empty cell and
    back restores the board, and every piece stores the position it had. *)
Theorem move_there_and_back (h : heap) (b : board) (self : ref) (end_ : pos) :
  b !! position (h self) = Some (Some self) →
  b !! end_ = Some None →
  (Piece_move self (position (h self)) (Piece_move self end_ (h, b))).2 = b
  ∧ ∀ r, (Piece_move self (position (h self)) (Piece_move self end_ (h, b))).1 r = h r.
Proof.
  intros Hold Hend. cbn [Piece_move fst snd]. rewrite fn_lookup_insert. cbn [set_position position].
  split.
  - apply map_eq. intros k. rewrite !lookup_insert.
    repeat case_decide; subst; congruence.
  - intros r. destruct (decide (r = self)) as [->|Hr].
    + rewrite fn_lookup_insert. by destruct (h self).
    + by rewrite !fn_lookup_insert_ne.
Qed.

Lemma move_there_and_back_witness :
  (Piece_move 0%nat (0, 0) (Piece_move 0%nat (0, 5) (one_rook, lone_rook))).2 = lone_rook
  ∧ ∀ r, (Piece_move 0%nat (0, 0) (Piece_move 0%nat (0, 5) (one_rook, lone_rook))).1 r
         = one_rook r.
Proof. apply (move_there_and_back one_rook lone_rook 0%nat (0, 5)); reflexivity. Defined.

End Mutation.

(** * Further properties of the socket gateway *)

Module Gateway.
Import Sockets SocketsSpec.

(** [_process_message] raises and leaves the trace as it is, or calls
    one handler. *)
Lemma process_message_outcome put (j : json) (t : list event) :
  (∃ e, _process_message put j t = (t, Raise e))
  ∨ (∃ f d, _process_message put j t = call put f d t).
Proof.
  destruct j as [| | | | | |d]; try (left; by eexists).
  pose proof (process_message_dict put d t) as Heq. cbv zeta in Heq. rewrite Heq.
  destruct (default JNone (d !! "type")) as [| | | |s| |]; try (left; by eexists).
  destruct (type_funcs !! s); [|left; by eexists].
  destruct (is_None _); [left; by eexists|right; by do 2 eexists].
Qed.

(** What [received_message] has done when the decoder is called: the
    close of an oversized frame, and the print. *)
Lemma received_message_raised put loads (data : list Byte.byte) (e : exn) (t : list event) :
  loads data = Raise e →
  received_message put loads data t
  = (t ++ (if bool_decide (1000 < Z.of_nat (length data))
           then [Close 1856 "message too long"] else [])
       ++ [Print data; Close 1000 "Input is not json"], Raise e).
Proof.
  intros Hl. unfold received_message, try_except_reraise, lift, close, emit, mbind, io_bind,
    mret, io_ret.
  rewrite Hl. case_bool_decide; by rewrite <- ?app_assoc.
Qed.

(** X23: a frame the decoder rejects closes the connection with code
    1000 and reason "Input is not json", after the frame was printed,
    and the decoder's exception is raised again; no handler is called. *)
Theorem not_json_closes_and_raises put loads (data : list Byte.byte) (e : exn)
    (t : list event) :
  loads data = Raise e →
  (received_message put loads data t).2 = Raise e
  ∧ (∃ before, (received_message put loads data t).1
               = t ++ before ++ [Print data; Close 1000 "Input is not json"]
               ∧ (before = [] ∨ before = [Close 1856 "message too long"]))
  ∧ ∀ f d, Call f d ∈ (received_message put loads data t).1 → Call f d ∈ t.
Proof.
  intros Hl. rewrite (received_message_raised put loads data e t Hl). cbn [fst snd].
  split; [done|]. split.
  - eexists. split; [done|]. case_bool_decide; auto.
  - intros f d. rewrite !elem_of_app, !elem_of_cons, elem_of_nil.
    intros [Hin | [Hin | Hin]]; [done| |by destruct Hin as [? | [? | []]]].
    case_bool_decide; [|by apply elem_of_nil in Hin].
    by apply list_elem_of_singleton in Hin.
Qed.

Lemma not_json_closes_and_raises_witness :
  (received_message queue_up loads_move [Byte.x7b] []).2 = Raise (ValueError "Expecting value")
  ∧ (∃ before, (received_message queue_up loads_move [Byte.x7b] []).1
               = [] ++ before ++ [Print [Byte.x7b]; Close 1000 "Input is not json"]
               ∧ (before = [] ∨ before = [Close 1856 "message too long"]))
  ∧ ∀ f d, Call f d ∈ (received_message queue_up loads_move [Byte.x7b] []).1 → Call f d ∈ [].
Proof.
  apply (not_json_closes_and_raises queue_up loads_move [Byte.x7b]
           (ValueError "Expecting value") []).
  reflexivity.
Defined.

(** X24: a frame that decodes to JSON that is not an object (null, a
    boolean, a number, a string or an array) raises AttributeError out
    of [received_message]: no handler is called and the connection is
    not closed for it. *)
Theorem not_an_object_raises put loads (data : list Byte.byte) (j : json) (t : list event) :
  loads data = Return j →
  (∀ d, j ≠ JDict d) →
  received_message put loads data t
  = (t ++ (if bool_decide (1000 < Z.of_nat (length data))
           then [Close 1856 "message too long"] else [])
       ++ [Print data],
     Raise (AttributeError "object has no attribute 'get'")).
Proof.
  intros Hl Hj. rewrite (received_message_decoded put loads data j t Hl).
  destruct j as [| | | | | |d]; try reflexivity. by destruct (Hj d).
Qed.

Lemma not_an_object_raises_witness :
  received_message queue_up (λ _, Return (JList [JInt 1])) [Byte.x5b; Byte.x31; Byte.x5d] []
  = ([Print [Byte.x5b; Byte.x31; Byte.x5d]],
     Raise (AttributeError "object has no attribute 'get'")).
Proof.
  apply (not_an_object_raises queue_up (λ _, Return (JList [JInt 1]))
           [Byte.x5b; Byte.x31; Byte.x5d] (JList [JInt 1]) []); [reflexivity|discriminate].
Defined.

(** X25: whatever the frame, the decoder and the queue,
    [received_message] adds to the trace the close with code 1856
    exactly when the frame is longer than 1000 bytes, then the print of
    the frame, and then nothing, or the close of a frame that is not
    JSON, or the call of one handler followed by what that handler does
    to the queue and to [pending].  It returns only when it has called a
    handler; it does return when the handler is [move] or
    [game_operation], which add nothing to the trace, while
    [join_queue] may raise. *)
Theorem received_message_trace put loads (data : list Byte.byte) (t : list event) :
  ∃ tail,
    (received_message put loads data t).1
    = t ++ (if bool_decide (1000 < Z.of_nat (length data))
            then [Close 1856 "message too long"] else [])
        ++ [Print data] ++ tail
    ∧ (tail = [] ∨ tail = [Close 1000 "Input is not json"]
       ∨ ∃ f d rest, tail = Call f d :: rest ∧ Forall handler_event rest)
    ∧ ((received_message put loads data t).2 = Return tt →
       ∃ f d rest, tail = Call f d :: rest)
    ∧ (∀ f d rest, tail = Call f d :: rest → f ≠ join_queue →
       rest = [] ∧ (received_message put loads data t).2 = Return tt).
Proof.
  destruct (loads data) as [j|e] eqn:Hl.
  - rewrite (received_message_decoded put loads data j t Hl).
    destruct (process_message_outcome put j
                (t ++ (if bool_decide (1000 < Z.of_nat (length data))
                       then [Close 1856 "message too long"] else []) ++ [Print data]))
      as [[e ->] | (f & d & ->)]; cbn [fst snd].
    + exists []. rewrite app_nil_r. split; [done|]. split; [by left|].
      split; [done|]. by intros ? ? ? ?.
    + destruct (call_outcome put f d
                  (t ++ (if bool_decide (1000 < Z.of_nat (length data))
                         then [Close 1856 "message too long"] else []) ++ [Print data]))
        as (rest & r & -> & Hrest & Hpass). cbn [fst snd].
      exists (Call f d :: rest). rewrite <- !app_assoc. split; [done|].
      split; [right; right; by do 3 eexists|]. split; [by do 3 eexists|].
      intros f' d' rest' [= <- <- <-] Hf. by apply Hpass.
  - rewrite (received_message_raised put loads data e t Hl). cbn [fst snd].
    exists [Close 1000 "Input is not json"]. split; [done|]. split; [by right; left|].
    split; [done|]. by intros ? ? ? ?.
Qed.

(** X28: [join_queue] returns exactly when the data is an object whose
    "id" the queue takes and the dict [pending] can hash.  The
    connection is recorded under the identifier only after the queue
    took it, and it is the last thing done; the identifier is put on the
    queue whenever the data holds one, also one that [pending] then
    refuses, a list or an object: such an identifier is on the queue
    with no connection recorded for it. *)
Theorem join_queue_records_after_put put (data : json) (t : list event) :
  ∃ rest r,
    call put join_queue data t = (t ++ Call join_queue data :: rest, r)
    ∧ (r = Return tt
       ↔ ∃ d id, data = JDict d ∧ d !! "id" = Some id ∧ put id = Return tt ∧ hashable id)
    ∧ (∀ id, Pending id ∈ rest → rest = [Put id; Pending id] ∧ r = Return tt)
    ∧ (∀ id, Put id ∈ rest ↔ ∃ d, data = JDict d ∧ d !! "id" = Some id)
    ∧ (∀ d id, data = JDict d → d !! "id" = Some id → put id = Return tt → ¬ hashable id →
       rest = [Put id] ∧ r = Raise (TypeError "unhashable type")).
Proof.
  unfold call, subscript, set_pending, raise, lift, emit, mbind, io_bind, mret, io_ret.
  assert (Hnone : ∀ e : exn, (∀ d id, data = JDict d → d !! "id" = Some id → False) →
            ∃ rest r,
              (t ++ [Call join_queue data], Raise e : result unit)
              = (t ++ Call join_queue data :: rest, r)
              ∧ (r = Return tt
                 ↔ ∃ d id, data = JDict d ∧ d !! "id" = Some id ∧ put id = Return tt
                           ∧ hashable id)
              ∧ (∀ id, Pending id ∈ rest → rest = [Put id; Pending id] ∧ r = Return tt)
              ∧ (∀ id, Put id ∈ rest ↔ ∃ d, data = JDict d ∧ d !! "id" = Some id)
              ∧ (∀ d id, data = JDict d → d !! "id" = Some id → put id = Return tt →
                 ¬ hashable id → rest = [Put id] ∧ r = Raise (TypeError "unhashable type"))).
  { intros e Hno. exists [], (Raise e). split; [done|]. split; [|split; [|split]].
    - split; [done|]. intros (d & id & Hd & Hid & _). by destruct (Hno d id).
    - intros id Hin. by apply elem_of_nil in Hin.
    - intros id. rewrite elem_of_nil. split; [done|]. intros (d & Hd & Hid).
      by destruct (Hno d id).
    - intros d id Hd Hid. by destruct (Hno d id). }
  destruct data as [| | | | | |d]; try (apply Hnone; by intros).
  destruct (d !! "id") as [id|] eqn:Hid; [|apply Hnone; intros d' id' [= <-]; congruence].
  clear Hnone.
  assert (Hput : ∀ id', Put id' ∈ [Put id] ↔ ∃ d', JDict d = JDict d' ∧ d' !! "id" = Some id').
  { intros id'. rewrite list_elem_of_singleton. split.
    - intros [= ->]. by exists d.
    - intros (d' & [= <-] & Hid'). congruence. }
  assert (Hput2 : ∀ id', Put id' ∈ [Put id; Pending id]
                         ↔ ∃ d', JDict d = JDict d' ∧ d' !! "id" = Some id').
  { intros id'. rewrite <- Hput, !elem_of_cons, elem_of_nil.
    split; [intros [?|[[=]|[]]]|intros [?|[]]]; by left. }
  destruct (put id) as [[]|e] eqn:Hp.
  - assert (hashable id ∨ ¬ hashable id) as [Hh|Hh] by (destruct id; simpl; tauto).
    + exists [Put id; Pending id], (Return tt). split.
      { destruct id; try done; by rewrite <- !app_assoc. }
      split; [|split; [|split]].
      * split; [|done]. intros _. by exists d, id.
      * intros id'. rewrite !elem_of_cons, elem_of_nil. intros [?|[[= ->]|[]]]; done.
      * exact Hput2.
      * intros d' id' [= <-] Hid'. assert (id' = id) as -> by congruence. done.
    + exists [Put id], (Raise (TypeError "unhashable type")). split.
      { rewrite <- !app_assoc. destruct id; try done; by destruct Hh. }
      split; [|split; [|split]].
      * split; [done|]. intros (d' & id' & [= <-] & Hid' & _ & Hh').
        assert (id' = id) as -> by congruence. done.
      * intros id'. rewrite list_elem_of_singleton. done.
      * exact Hput.
      * intros d' id' [= <-] Hid' _ _. assert (id' = id) as -> by congruence. done.
  - exists [Put id], (Raise e). split; [by rewrite <- !app_assoc|].
    split; [|split; [|split]].
    + split; [done|]. intros (d' & id' & [= <-] & Hid' & Hp' & _).
      assert (id' = id) as -> by congruence. congruence.
    + intros id'. rewrite list_elem_of_singleton. done.
    + exact Hput.
    + intros d' id' [= <-] Hid' Hp'. assert (id' = id) as -> by congruence. congruence.
Qed.

(** [join_queue] on an identifier the queue takes, and with a queue
    that cannot be reached. *)
Example join_queue_on_an_identifier :
  call queue_up join_queue (JDict {[ "id" := JInt 7 ]}) []
  = ([Call join_queue (JDict {[ "id" := JInt 7 ]}); Put (JInt 7); Pending (JInt 7)],
     Return tt)
  ∧ call queue_down join_queue (JDict {[ "id" := JInt 7 ]}) []
    = ([Call join_queue (JDict {[ "id" := JInt 7 ]}); Put (JInt 7)],
       Raise (ConnectionError "Connection refused")).
Proof. split; by vm_compute. Qed.

(** X27: of a decoded object [_process_message] reads the type and the
    data only: two objects that agree on both keys are processed alike,
    whatever other keys they hold. *)
Theorem process_message_reads_type_and_data put (d1 d2 : gmap string json) (t : list event) :
  d1 !! "type" = d2 !! "type" →
  d1 !! "data" = d2 !! "data" →
  _process_message put (JDict d1) t = _process_message put (JDict d2) t.
Proof.
  intros Htype Hdata.
  pose proof (process_message_dict put d1 t) as H1.
  pose proof (process_message_dict put d2 t) as H2.
  cbv zeta in H1, H2. rewrite H1, H2. by rewrite Htype, Hdata.
Qed.

Lemma process_message_reads_type_and_data_witness :
  _process_message queue_up (JDict {[ "type" := JStr "move"; "data" := JInt 1 ]}) []
  = _process_message queue_up
      (JDict {[ "type" := JStr "move"; "data" := JInt 1; "id" := JStr "white" ]}) [].
Proof.
  apply (process_message_reads_type_and_data queue_up
           {[ "type" := JStr "move"; "data" := JInt 1 ]}
           {[ "type" := JStr "move"; "data" := JInt 1; "id" := JStr "white" ]} []);
    reflexivity.
Defined.

End Gateway.
